(** * GarageTracker: the front end's status and distance logic, verified

    A shallow embedding of the React front end of GarageTracker
    (src/frontend/src/context/LanguageContext.js, pages/CarDetail.js,
    pages/Dashboard.js) together with a model of the status engine and
    of the replacement end point, which live in the FastAPI back end.

    Conventions of the embedding
    - a JavaScript number is an IEEE 754 binary64 value: Rocq's primitive
      [float], whose operations are the hardware's (round to nearest, ties
      to even), exactly those of [*] and [/] in JavaScript;
    - a distance handed to the context functions is a number or is missing
      ([undefined], [null]): the type [Js.value];
    - the text of the program (keys, labels, messages, unit and status
      names) is a [string]; text typed by the user, which [trim] inspects
      character by character, is the list of its UTF-16 code units;
    - an object literal is the [gmap] of its own properties; a lookup
      [o[k]] that can reach the prototype goes on to the members of
      [Object.prototype] ([Js.Object_prototype]), a lookup guarded by
      [hasOwnProperty] does not;
    - a call completes normally or throws: the type [Js.completion];
    - integers that count list elements or miles of a stored record are [Z]. *)

From Stdlib Require Import ZArith Uint63 Floats Bool String Ascii Lia.
From stdpp Require Import base option list gmap strings pretty.

Set Warnings "-inexact-float".
Local Open Scope string_scope.
Local Open Scope Z_scope.

(* ===================================================================== *)
(** ** The JavaScript base the front end runs on                         *)
(* ===================================================================== *)

Module Js.

(** What a distance argument can be. *)
Inductive value : Type :=
| VUndefined
| VNull
| VNum (x : float).

(** Errors a call can throw. [TypeError] is what a method call on
    [undefined] or [null] raises; [ValidationError] is the error kind the
    specification names (no function of the front end constructs it). *)
Inductive error : Type :=
| TypeError
| ValidationError.

Inductive completion (A : Type) : Type :=
| Normal (a : A)
| Throw (e : error).
Arguments Normal {A} a.
Arguments Throw {A} e.

#[global] Instance completion_bind : MBind completion :=
  fun A B (k : A -> completion B) (c : completion A) =>
    match c with
    | Normal a => k a
    | Throw e => Throw e
    end.

(** [!v]: a number is falsy when it is [+0], [-0] or [NaN]. *)
Definition falsy (v : value) : bool :=
  match v with
  | VUndefined | VNull => true
  | VNum x => is_zero x || is_nan x
  end.

(** [v !== n] for a number [n]: strict inequality, no coercion. *)
Definition strict_neq (v : value) (n : float) : bool :=
  match v with
  | VUndefined | VNull => true
  | VNum x => negb (x =? n)%float
  end.

(** [ToNumber], applied by [*] to its operands. *)
Definition ToNumber (v : value) : float :=
  match v with
  | VUndefined => nan
  | VNull => 0%float
  | VNum x => x
  end.

(** The number an integer literal or an integer field denotes (exact for
    magnitudes up to 2^53). *)
Definition of_int (z : Z) : float :=
  if z <? 0 then (- of_uint63 (Uint63.of_Z (- z)))%float
  else of_uint63 (Uint63.of_Z z).

Definition two52 : float := Eval vm_compute in of_int (2 ^ 52).

(** [Math.round x]: [x] itself when it is not finite or already integral,
    else the integer nearest to [x], the one towards +∞ on a tie; the
    result keeps the sign of [x] when it is zero.  Every double of
    magnitude at least 2^52 is integral.  Below that, [(a + 2^52) - 2^52]
    is [a] rounded to an integer (exactly), from which the floor [fl] and
    the fraction [a - fl] of the magnitude follow without rounding. *)
Definition Math_round (x : float) : float :=
  if is_nan x || is_infinity x then x
  else if (two52 <=? abs x)%float then x
  else
    let a := abs x in
    let r := ((a + two52) - two52)%float in
    let fl := if (a <? r)%float then (r - 1)%float else r in
    let frac := (a - fl)%float in
    if get_sign x
    then (- (if (frac <=? 0.5)%float then fl else fl + 1))%float
    else if (0.5 <=? frac)%float then (fl + 1)%float else fl.

(** The integer [floor (x + 1/2)] computed on the exact value [±m·2^e] of a
    finite double: the mathematical content of [Math.round], used to
    cross-check [Math_round]. *)
Definition round_half_up (x : float) : option Z :=
  match Prim2SF x with
  | S754_zero _ => Some 0
  | S754_finite s m e =>
      let sm := if s then Z.neg m else Z.pos m in
      Some (if 0 <=? e then Z.shiftl sm e
            else Z.shiftr (2 * sm + Z.shiftl 1 (- e)) (1 - e))
  | _ => None
  end.

(** SameValueZero of ECMAScript: equal as numbers, [NaN] equal to itself
    and [+0] equal to [-0]. *)
Definition SameValueZero (x y : float) : Prop :=
  x = y \/ (x =? y)%float = true.

(** *** Strings *)

(** A string as the sequence of its UTF-16 code units; [units] gives the
    units of a text written in ASCII. *)
Definition units (s : string) : list N :=
  N_of_ascii <$> list_ascii_of_string s.

(** The code units [String.prototype.trim] strips: WhiteSpace (TAB, VT,
    FF, the space separators SPACE, NBSP, U+1680, U+2000 to U+200A,
    U+202F, U+205F, U+3000, and U+FEFF) and LineTerminator (LF, CR,
    U+2028, U+2029). *)
Definition is_white_space (c : N) : bool :=
  ((9 <=? c) && (c <=? 13) || (c =? 32) || (c =? 160) || (c =? 5760)
   || (8192 <=? c) && (c <=? 8202) || (c =? 8232) || (c =? 8233)
   || (c =? 8239) || (c =? 8287) || (c =? 12288) || (c =? 65279))%N.

Fixpoint trimStart (s : list N) : list N :=
  match s with
  | [] => []
  | c :: r => if is_white_space c then trimStart r else s
  end.

Fixpoint trimEnd (s : list N) : list N :=
  match s with
  | [] => []
  | c :: r =>
      match trimEnd r with
      | [] => if is_white_space c then [] else [c]
      | r' => c :: r'
      end
  end.

Definition trim (s : list N) : list N := trimEnd (trimStart s).

(** [!s] for a string given by its code units. *)
Definition empty_units (s : list N) : bool :=
  match s with
  | [] => true
  | _ => false
  end.

(** [!s] for a string: only the empty string is falsy. *)
Definition empty (s : string) : bool :=
  match s with
  | EmptyString => true
  | _ => false
  end.

(** *** Objects and what a property lookup yields

    An object is a dictionary written as a literal (its own properties,
    the prototype being [Object.prototype]) or one of the engine's
    built-in objects, known by its name. *)
Inductive object : Type :=
| Dict (own : gmap string string)
| Builtin (name : string).

Inductive any : Type :=
| AUndefined
| ANull
| ABool (b : bool)
| ANum (x : float)
| AString (s : string)
| AObject (o : object).

(** ToBoolean: an object, a function included, is truthy. *)
Definition truthy (v : any) : bool :=
  match v with
  | AUndefined | ANull => false
  | ABool b => b
  | ANum x => negb (is_zero x || is_nan x)
  | AString s => negb (empty s)
  | AObject _ => true
  end.

(** The members every object literal inherits: the properties of
    [Object.prototype] (those of Annex B included, as in a browser).  Each
    is a built-in function, but for [__proto__], which yields the
    prototype itself. *)
Definition Object_prototype : gmap string object :=
  {[ "constructor" := Builtin "Object";
     "__proto__" := Builtin "Object.prototype";
     "hasOwnProperty" := Builtin "Object.prototype.hasOwnProperty";
     "isPrototypeOf" := Builtin "Object.prototype.isPrototypeOf";
     "propertyIsEnumerable" := Builtin "Object.prototype.propertyIsEnumerable";
     "toLocaleString" := Builtin "Object.prototype.toLocaleString";
     "toString" := Builtin "Object.prototype.toString";
     "valueOf" := Builtin "Object.prototype.valueOf";
     "__defineGetter__" := Builtin "Object.prototype.__defineGetter__";
     "__defineSetter__" := Builtin "Object.prototype.__defineSetter__";
     "__lookupGetter__" := Builtin "Object.prototype.__lookupGetter__";
     "__lookupSetter__" := Builtin "Object.prototype.__lookupSetter__" ]}.

(** *** [Number.prototype.toLocaleString] in the en-US locale

    Default options: grouping by three, at most three fraction digits,
    half-expand rounding of the exact value.  It renders the integers
    below 2^53 as the engines do; the statements below take the rendering
    as a parameter and use this one only to run examples on such
    integers. *)

Fixpoint group3 (digits : string) : string :=
  match digits with
  | EmptyString => EmptyString
  | String c r =>
      let n := String.length r in
      String c (if (Nat.ltb 0 n && Nat.eqb (Nat.modulo n 3) 0)%bool
                then "," +:+ group3 r else group3 r)
  end.

Definition digit (d : Z) : string := pretty (Z.to_N d).

Definition fraction3 (f : Z) : string :=
  let d1 := f / 100 in
  let d2 := (f / 10) mod 10 in
  let d3 := f mod 10 in
  if f =? 0 then ""
  else if negb (d3 =? 0) then "." +:+ digit d1 +:+ digit d2 +:+ digit d3
  else if negb (d2 =? 0) then "." +:+ digit d1 +:+ digit d2
  else "." +:+ digit d1.

Definition toLocaleString_en_US (x : float) : string :=
  match Prim2SF x with
  | S754_nan => "NaN"
  | S754_infinity s => if s then "-∞" else "∞"
  | S754_zero s => if s then "-0" else "0"
  | S754_finite s m e =>
      let thousandths :=
        if 0 <=? e then Z.shiftl (1000 * Z.pos m) e
        else Z.shiftr (2000 * Z.pos m + Z.shiftl 1 (- e)) (1 - e) in
      (if s then "-" else "")
        +:+ group3 (pretty (Z.to_N (thousandths / 1000)))
        +:+ fraction3 (thousandths mod 1000)
  end.

(** *** [Array.prototype.sort]

    The comparator returns a number; a negative result asks for its first
    argument to come first.  [insert_sorted] and [sort_insertion] are the
    stable insertion sort engines use on short arrays. *)
Section Sort.
Context {A : Type} (compareFn : A -> A -> Z).

Fixpoint insert_sorted (x : A) (l : list A) : list A :=
  match l with
  | [] => [x]
  | y :: l' => if compareFn y x <=? 0 then y :: insert_sorted x l' else x :: l
  end.

Definition sort_insertion (l : list A) : list A :=
  foldl (fun acc x => insert_sorted x acc) [] l.
End Sort.

End Js.

(* ===================================================================== *)
(** ** context/LanguageContext.js                                        *)
(* ===================================================================== *)

Module LanguageContext.
Import Js.

Section LanguageProvider.
(** The table imported from ../i18n/translations, and the provider's
    state: the selected language and distance unit (both read back from
    localStorage, hence arbitrary strings). *)
Variable translations : gmap string (gmap string string).
Variable language : string.
Variable distanceUnit : string.
(** The engine's [toLocaleString] on numbers, in the browser's locale. *)
Variable toLocaleString : float -> string.
(** The engine's property lookup on its built-in objects:
    [builtin_get name key] is the outcome of [o[key]] for the built-in
    [o] of that name. *)
Variable builtin_get : string -> string -> completion any.

(** [translations[lang]]: the table of that name, else the member the
    object inherits; [None] is [undefined]. *)
Definition translations_get (lang : string) : option object :=
  match translations !! lang with
  | Some table => Some (Dict table)
  | None => Object_prototype !! lang
  end.

(** [o[key]]: the own property, else the inherited member, else
    [undefined]; on a built-in object, what the engine answers. *)
Definition object_get (o : object) (key : string) : completion any :=
  match o with
  | Dict own =>
      Normal (match own !! key with
              | Some s => AString s
              | None =>
                  match Object_prototype !! key with
                  | Some member => AObject member
                  | None => AUndefined
                  end
              end)
  | Builtin name => builtin_get name key
  end.

(** [translations[lang]?.[key]] *)
Definition lookup_translation (lang key : string) : completion any :=
  match translations_get lang with
  | Some o => object_get o key
  | None => Normal AUndefined
  end.

(** [a || b || key] evaluates [b] only when [a] is falsy. *)
Definition t (key : string) : completion any :=
  a ← lookup_translation language key;
  ab ← (if truthy a then Normal a else lookup_translation "en" key);
  Normal (if truthy ab then ab else AString key).

(** Convert miles to km.  [toUnit = distanceUnit] is a default
    parameter: [None] is an omitted argument. *)
Definition convertDistance (value : Js.value) (toUnit : option string)
  : completion Js.value :=
  let toUnit := default distanceUnit toUnit in
  if falsy value then Normal (VNum 0%float)
  else if String.eqb toUnit "km"
  then Normal (VNum (Math_round (ToNumber value * 1.60934)%float))
  else Normal value.

(** [converted.toLocaleString()] *)
Definition call_toLocaleString (converted : Js.value) : completion string :=
  match converted with
  | VNum x => Normal (toLocaleString x)
  | VUndefined | VNull => Throw TypeError
  end.

Definition formatDistance (value : Js.value) (showUnit : bool)
  : completion string :=
  if falsy value && strict_neq value 0%float then Normal "N/A"
  else
    converted ← convertDistance value None;
    let unit := if String.eqb distanceUnit "km" then "km" else "mi" in
    rendered ← call_toLocaleString converted;
    Normal (if showUnit then rendered +:+ " " +:+ unit else rendered).


Definition getDistanceUnitShort : string :=
  if String.eqb distanceUnit "km" then "km" else "mi".
End LanguageProvider.

(** *** The provider's state and the browser

    What the provider reads and writes outside itself: [localStorage] (a
    string per key, [getItem] giving [null], here [None], for an absent
    key) and the [lang] attribute of the document element. *)
Record browser : Type := mkBrowser {
  localStorage : gmap string string;
  document_lang : string
}.

(** [saved || fallback] on the result of [getItem]. *)
Definition saved_or (saved : option string) (fallback : string) : string :=
  match saved with
  | Some s => if empty s then fallback else s
  | None => fallback
  end.

(** The initialisers of the two [useState] calls. *)
Definition initial_language (b : browser) : string :=
  saved_or (localStorage b !! "language") "en".

Definition initial_distanceUnit (b : browser) : string :=
  saved_or (localStorage b !! "distanceUnit") "miles".

(** The two effects, run after a render whose [language], respectively
    [distanceUnit], is new (the first render included). *)
Definition language_effect (language : string) (b : browser) : browser :=
  {| localStorage := <["language" := language]> (localStorage b);
     document_lang := language |}.

Definition distanceUnit_effect (distanceUnit : string) (b : browser) : browser :=
  {| localStorage := <["distanceUnit" := distanceUnit]> (localStorage b);
     document_lang := document_lang b |}.


End LanguageContext.

(* ===================================================================== *)
(** ** The unit converter's inverse direction                            *)
(* ===================================================================== *)

Module UnitConverter.
Import Js.

(** Modelled from the spec: [toCanonical], the conversion of a displayed
    value back to miles, which the front end does not have (its
    [convertDistance] only goes from miles to the display unit).  The
    specification: if the unit is kilometers, [round (displayValue /
    1.60934)]; else [displayValue] unchanged.  The unit is written as the
    front end stores it, ["km"] or ["miles"]. *)
Definition toCanonical (displayValue : float) (unit : string) : float :=
  if String.eqb unit "km" then Math_round (displayValue / 1.60934)%float
  else displayValue.

End UnitConverter.

(* ===================================================================== *)
(** ** The status engine                                                 *)
(* ===================================================================== *)

Module StatusEngine.
Import Js.

(** *** Calendar dates *)

Record date : Type := mkDate { year : Z; month : Z; day : Z }.

Definition is_leap_year (y : Z) : bool :=
  (y mod 4 =? 0) && (negb (y mod 100 =? 0) || (y mod 400 =? 0)).

Definition days_in_month (y m : Z) : Z :=
  if (m =? 2) then (if is_leap_year y then 29 else 28)
  else if (m =? 4) || (m =? 6) || (m =? 9) || (m =? 11) then 30
  else 31.

Definition valid_date (d : date) : Prop :=
  1 <= month d <= 12 /\ 1 <= day d <= days_in_month (year d) (month d).

(** Calendar-month addition, the day clamped to the target month's last
    day. *)
Definition add_months (d : date) (n : Z) : date :=
  let index := year d * 12 + (month d - 1) + n in
  let y := index / 12 in
  let m := index mod 12 + 1 in
  {| year := y; month := m; day := Z.min (day d) (days_in_month y m) |}.

(** The order of the calendar. *)
Definition date_le (a b : date) : Prop :=
  year a < year b
  \/ (year a = year b
      /\ (month a < month b \/ (month a = month b /\ day a <= day b))).

(** Days elapsed before the first of January of year [y], before the
    first of month [m] within year [y], and the running number of a day. *)
Definition days_before_year (y : Z) : Z :=
  let p := y - 1 in
  365 * p + p / 4 - p / 100 + p / 400.

Definition days_before_month (y m : Z) : Z :=
  foldr Z.add 0 (map (days_in_month y) (seqZ 1 (m - 1))).

Definition day_number (d : date) : Z :=
  days_before_year (year d) + days_before_month (year d) (month d) + day d.

(** Whole days from [a] to [b]; negative when [b] is earlier. *)
Definition days_between (a b : date) : Z := day_number b - day_number a.

(** *** The engine *)

Inductive label : Type := good | due_soon | overdue | replacement_requested.

Record input : Type := mkInput {
  lastPerformedMileage : Z;
  lastPerformedDate : date;
  intervalMiles : Z;
  intervalMonths : Z;
  currentMileage : Z;
  today : date;
  replacementRequested : bool
}.

Record output : Type := mkOutput {
  nextDueMileage : Z;
  nextDueDate : date;
  status : label
}.

Definition DUE_SOON_MILES_THRESHOLD : Z := 500.
Definition DUE_SOON_DAYS_THRESHOLD : Z := 14.

Definition classify (replacement : bool) (milesRemaining daysRemaining : Z) : label :=
  if replacement then replacement_requested
  else if (milesRemaining <=? 0) || (daysRemaining <=? 0) then overdue
  else if (milesRemaining <=? DUE_SOON_MILES_THRESHOLD)
          || (daysRemaining <=? DUE_SOON_DAYS_THRESHOLD) then due_soon
  else good.

(** Modelled from the spec: the StatusEngine of the back end (the FastAPI
    server is not among the sources).  Steps 1 to 5 of its algorithm, and
    its failure condition: a non-positive interval is a
    [ValidationError]. *)
Definition evaluate (i : input) : completion output :=
  if (intervalMiles i <=? 0) || (intervalMonths i <=? 0) then Throw ValidationError
  else
    let nextDueMileage := lastPerformedMileage i + intervalMiles i in
    let nextDueDate := add_months (lastPerformedDate i) (intervalMonths i) in
    let milesRemaining := nextDueMileage - currentMileage i in
    let daysRemaining := days_between (today i) nextDueDate in
    Normal {| nextDueMileage := nextDueMileage;
              nextDueDate := nextDueDate;
              status := classify (replacementRequested i) milesRemaining daysRemaining |}.

End StatusEngine.

(* ===================================================================== *)
(** ** The maintenance end points of the back end                        *)
(* ===================================================================== *)

Module Backend.
Import Js.

(** A stored maintenance task, with the fields of the data model. *)
Record MaintenanceTask : Type := mkTask {
  taskType : string;
  lastPerformedMileage : Z;
  lastPerformedDate : StatusEngine.date;
  intervalMiles : Z;
  intervalMonths : Z;
  replacementRequested : bool;
  replacementReason : option (list N)
}.

(** Modelled from the spec: POST /maintenance/{task_id}/request-replacement
    (the server is not among the sources).  The request is validated (the
    task exists, the reason is non-empty); then the flag is set and the
    reason stored, nothing else of the record being touched. *)
Definition request_replacement (taskId : string) (reason : list N)
    (db : gmap string MaintenanceTask) : completion (gmap string MaintenanceTask) :=
  match db !! taskId with
  | None => Throw ValidationError
  | Some task =>
      if empty_units reason then Throw ValidationError
      else Normal (<[taskId :=
                      {| taskType := taskType task;
                         lastPerformedMileage := lastPerformedMileage task;
                         lastPerformedDate := lastPerformedDate task;
                         intervalMiles := intervalMiles task;
                         intervalMonths := intervalMonths task;
                         replacementRequested := true;
                         replacementReason := Some reason |}]> db)
  end.

End Backend.

(* ===================================================================== *)
(** ** pages/CarDetail.js and pages/Dashboard.js                         *)
(* ===================================================================== *)

(** The lucide-react icons the pages draw on a maintenance task. *)
Inductive lucide_icon : Type :=
| Droplet | Wind | Thermometer | Disc | BatteryCharging | Gauge | Wrench.

(** A maintenance task as the API returns it to the pages. *)
Record task : Type := mkTaskView {
  id : string;
  task_type : string;
  status : string;
  replacement_requested : bool;
  replacement_reason : option string;
  last_performed_mileage : Z;
  next_due_mileage : Z;
  interval_miles : Z;
  interval_months : Z
}.

Module CarDetail.
Import Js.

(** *** getStatusCounts *)

Definition zero_counts : gmap string Z :=
  {[ "good" := 0; "due_soon" := 0; "overdue" := 0; "replacement_requested" := 0 ]}.

(** [counts[k]++] on a property the object has. *)
Definition increment (k : string) (counts : gmap string Z) : gmap string Z :=
  alter (fun n => n + 1) k counts.

(** The body of the [forEach]; [is_Some (counts !! k)] is
    [counts.hasOwnProperty(k)]. *)
Definition count_task (counts : gmap string Z) (t : task) : gmap string Z :=
  if decide (is_Some (counts !! status t))
  then increment (status t) counts
  else increment "good" counts.

Definition getStatusCounts (tasks : list task) : gmap string Z :=
  foldl count_task zero_counts tasks.

(** *** The badge of a task card *)

Definition isReplacementRequested (t : task) : bool :=
  String.eqb (status t) "replacement_requested" || replacement_requested t.

Definition badgeLabel (t : task) : string :=
  if isReplacementRequested t then "Needs Replacement"
  else if String.eqb (status t) "overdue" then "Overdue"
  else if String.eqb (status t) "due_soon" then "Due Soon"
  else "Good".

Definition badgeClass (t : task) : string :=
  if isReplacementRequested t
  then "bg-purple-100 text-purple-700 dark:bg-purple-900/30 dark:text-purple-400"
  else if String.eqb (status t) "overdue" then "status-overdue"
  else if String.eqb (status t) "due_soon" then "status-due-soon"
  else "status-good".

(** *** handleRequestReplacement *)

(** What the handler does besides changing state. *)
Inductive effect : Type :=
| toast_error (message : string)
| toast_success (message : string)
| fetchCarData.

(** The component state the handler reads and writes, the server's task
    collection its POST reaches, and the effects issued so far. *)
Record world : Type := mkWorld {
  replacementOpen : option string;
  replacementReason : list N;
  db : gmap string Backend.MaintenanceTask;
  effects : list effect
}.

Definition emit (e : effect) (w : world) : world :=
  {| replacementOpen := replacementOpen w;
     replacementReason := replacementReason w;
     db := db w;
     effects := effects w ++ [e] |}.

(** [axios.post] rejects when the server answers with an error, which the
    [catch] turns into a toast. *)
Definition handleRequestReplacement (taskId : string) (w : world) : world :=
  if empty_units (trim (replacementReason w))
  then emit (toast_error "Please provide a reason for replacement") w
  else
    match Backend.request_replacement taskId (replacementReason w) (db w) with
    | Normal db' =>
        emit fetchCarData
          {| replacementOpen := None;
             replacementReason := [];
             db := db';
             effects := effects w ++ [toast_success "Replacement requested!"] |}
    | Throw _ => emit (toast_error "Failed to request replacement") w
    end.

(** *** The maintenance types and the add-task form *)

Record maintenanceType : Type := mkType {
  value : string;
  label : string;
  icon : lucide_icon;
  defaultMiles : Z;
  defaultMonths : Z
}.

Definition maintenanceTypes : list maintenanceType :=
  [ mkType "oil_change" "Oil Change" Droplet 5000 6;
    mkType "air_filter" "Air Filter" Wind 15000 12;
    mkType "cabin_filter" "Cabin Filter" Wind 15000 12;
    mkType "coolant" "Coolant Check" Thermometer 30000 24;
    mkType "brakes" "Brake Pads" Disc 30000 24;
    mkType "brake_fluid" "Brake Fluid" Droplet 30000 24;
    mkType "battery" "Battery Check" BatteryCharging 50000 36;
    mkType "tire_rotation" "Tire Rotation" Gauge 7500 6;
    mkType "transmission" "Transmission Fluid" Wrench 60000 48;
    mkType "spark_plugs" "Spark Plugs" Wrench 60000 48 ].

(** [maintenanceTypes.find(t => t.value === v)] *)
Definition find_type (v : string) : option maintenanceType :=
  List.find (fun t => String.eqb (value t) v) maintenanceTypes.

(** [a || b] on a number that may be missing: [a] unless it is missing or
    zero. *)
Definition number_or (a : option Z) (b : Z) : Z :=
  match a with
  | Some n => if n =? 0 then b else n
  | None => b
  end.

(** The draft of a new task held by the form. *)
Record newTask : Type := mkNewTask {
  task_type : string;
  description : string;
  last_performed_mileage : Z;
  interval_miles : Z;
  interval_months : Z;
  notes : string
}.

Definition handleTaskTypeChange (v : string) (draft : newTask) : newTask :=
  let taskType := find_type v in
  {| task_type := v;
     description := description draft;
     last_performed_mileage := last_performed_mileage draft;
     interval_miles := number_or (defaultMiles <$> taskType) 5000;
     interval_months := number_or (defaultMonths <$> taskType) 6;
     notes := notes draft |}.

(** [taskType?.icon || Wrench], the icon of a task card. *)
Definition taskIcon (type : string) : lucide_icon :=
  match find_type type with
  | Some taskType => icon taskType
  | None => Wrench
  end.

(** [task.task_type.replace(/_/g, ' ')], the title of a task card (and of
    a dashboard entry). *)
Fixpoint task_title (type : string) : string :=
  match type with
  | EmptyString => EmptyString
  | String c rest =>
      String (if Ascii.eqb c "_" then " "%char else c) (task_title rest)
  end.

End CarDetail.

Module Dashboard.

Section Upcoming.
(** [Array.prototype.sort] of the engine the page runs on. *)
Variable sort : (task -> task -> Z) -> list task -> list task.

Definition upcoming_order (a b : task) : Z :=
  if String.eqb (status a) "overdue" then -1 else 1.

Definition upcomingTasks (tasks : list task) : list task :=
  take 5
    (sort upcoming_order
       (filter (fun t => status t = "due_soon" \/ status t = "overdue") tasks)).
End Upcoming.

(** The badge of an entry of the upcoming list. *)
Definition upcomingBadge (t : task) : string :=
  if String.eqb (status t) "overdue" then "Overdue" else "Due Soon".

Definition maintenanceIcons : gmap string lucide_icon :=
  {[ "oil_change" := Droplet; "air_filter" := Wind; "cabin_filter" := Wind;
     "coolant" := Thermometer; "brakes" := Disc; "brake_fluid" := Droplet;
     "battery" := BatteryCharging; "tire_rotation" := Gauge;
     "default" := Wrench ]}.

(** [maintenanceIcons[name]]: the icon of that name, else the member the
    object inherits ([inr]); [None] is [undefined]. *)
Definition icon_get (name : string) : option (lucide_icon + Js.object) :=
  match maintenanceIcons !! name with
  | Some i => Some (inl i)
  | None => inr <$> Js.Object_prototype !! name
  end.

(** [maintenanceIcons[task.task_type] || maintenanceIcons.default]: an
    icon and a built-in object are both truthy. *)
Definition taskIcon (type : string) : option (lucide_icon + Js.object) :=
  match icon_get type with
  | Some component => Some component
  | None => icon_get "default"
  end.

(** A vehicle as the API returns it; [image_url] may be missing. *)
Record car : Type := mkCar {
  id : string;
  year : Z;
  make : string;
  model : string;
  image_url : option string
}.

(** The year is an integer, which a template prints in decimal. *)
Definition getCarName (cars : list car) (carId : string) : string :=
  match List.find (fun c => String.eqb (id c) carId) cars with
  | Some car => pretty (year car) +:+ " " +:+ make car +:+ " " +:+ model car
  | None => "Unknown Car"
  end.

Definition carPlaceholders : list string :=
  [ "https://images.unsplash.com/photo-1562412386-e48a8277c959?auto=format&fit=crop&q=80&w=400";
    "https://images.unsplash.com/photo-1653325189816-5d8dc746cc16?auto=format&fit=crop&q=80&w=400" ].

(** [car.image_url || carPlaceholders[index % carPlaceholders.length]],
    the [src] of the [index]-th vehicle of the list; [None] is
    [undefined]. *)
Definition imageSource (c : car) (index : nat) : option string :=
  let placeholder := carPlaceholders !! (index mod length carPlaceholders)%nat in
  match image_url c with
  | Some url => if Js.empty url then placeholder else Some url
  | None => placeholder
  end.

End Dashboard.




Import Js LanguageContext.

(* ===================================================================== *)
(** ** Predicates and checkers used by the statements                    *)
(* ===================================================================== *)

(** [range_all p f lo]: [f] holds at each of the [p] integers from [lo]
    on, by halving of the range. *)
Fixpoint range_all (p : positive) (f : Z -> bool) (lo : Z) : bool :=
  match p with
  | xH => f lo
  | xO q => range_all q f lo && range_all q f (lo + Z.pos q)
  | xI q => range_all q f lo && range_all q f (lo + Z.pos q) && f (lo + Z.pos q + Z.pos q)
  end.

(** Miles to kilometers and back: the result is within one mile of the
    start, and in fact equal to it. *)
Definition roundtrip_ok (z : Z) : bool :=
  match convertDistance "" (VNum (of_int z)) (Some "km") with
  | Normal (VNum km) =>
      (abs (UnitConverter.toCanonical km "km" - of_int z) <=? 1)%float
      && (UnitConverter.toCanonical km "km" =? of_int z)%float
  | _ => false
  end.

(** The translation a table holds of its own for a language and a key. *)
Definition own_translation (translations : gmap string (gmap string string))
    (lang key : string) : option string :=
  translations !! lang ≫= (fun table => table !! key).

(** A translation that counts for [||]: one that is there and not the
    empty string. *)
Definition usable (translation : option string) : Prop :=
  exists s, translation = Some s /\ s <> "".

(** A table whose French greeting is the empty string. *)
Definition sample_with_empty : gmap string (gmap string string) :=
  {[ "en" := {[ "greeting" := "Hello" ]};
     "fr" := {[ "greeting" := "" ]} ]}.

(** A two-language table with one key missing in French. *)
Definition sample_translations : gmap string (gmap string string) :=
  {[ "en" := {[ "dashboard" := "Dashboard"; "settings" := "Settings" ]};
     "fr" := {[ "dashboard" := "Tableau de bord" ]} ]}.

(** The counts object with the given four values. *)
Definition counts_of (g d o r : Z) : gmap string Z :=
  {[ "good" := g; "due_soon" := d; "overdue" := o; "replacement_requested" := r ]}.

(** How many tasks carry the status [s], and how many carry none of the
    three labels that have a bucket of their own besides ["good"]. *)
Definition with_status (s : string) (tasks : list task) : Z :=
  Z.of_nat (length (filter (fun t => status t = s) tasks)).

Definition without_label (tasks : list task) : Z :=
  Z.of_nat (length (filter
    (fun t => status t ∉ ["due_soon"; "overdue"; "replacement_requested"]) tasks)).

(** A string of white space only (the empty string included). *)
Fixpoint all_white_space (s : list N) : bool :=
  match s with
  | [] => true
  | c :: r => is_white_space c && all_white_space r
  end.

(** A stored task and a page with a reason typed in, to run the handler on. *)
Definition sample_task : Backend.MaintenanceTask :=
  {| Backend.taskType := "oil_change";
     Backend.lastPerformedMileage := 50000;
     Backend.lastPerformedDate := StatusEngine.mkDate 2024 1 15;
     Backend.intervalMiles := 5000;
     Backend.intervalMonths := 6;
     Backend.replacementRequested := false;
     Backend.replacementReason := None |}.

Definition sample_world (reason : list N) : CarDetail.world :=
  {| CarDetail.replacementOpen := Some "t1";
     CarDetail.replacementReason := reason;
     CarDetail.db := {[ "t1" := sample_task ]};
     CarDetail.effects := [] |}.

(** The extra day of a leap year, and the strict order of the calendar. *)
Definition leap_day (y : Z) : Z := if StatusEngine.is_leap_year y then 1 else 0.

Definition date_lt (a b : StatusEngine.date) : Prop :=
  StatusEngine.year a < StatusEngine.year b
  \/ (StatusEngine.year a = StatusEngine.year b
      /\ (StatusEngine.month a < StatusEngine.month b
          \/ (StatusEngine.month a = StatusEngine.month b
              /\ StatusEngine.day a < StatusEngine.day b))).

(** The first scenario of the specification: an oil change 400 miles short
    of its next service. *)
Definition scenario (currentMileage : Z) : StatusEngine.input :=
  {| StatusEngine.lastPerformedMileage := 50000;
     StatusEngine.lastPerformedDate := StatusEngine.mkDate 2024 1 15;
     StatusEngine.intervalMiles := 5000;
     StatusEngine.intervalMonths := 6;
     StatusEngine.currentMileage := currentMileage;
     StatusEngine.today := StatusEngine.mkDate 2024 6 1;
     StatusEngine.replacementRequested := false |}.

(** [Math_round] against the exact [round_half_up]: on the quarters [z/4]
    (every tie among them), and on the product the conversion rounds. *)
Definition agrees_with_exact (x : float) : bool :=
  match round_half_up x with
  | Some n => (Math_round x =? of_int n)%float
  | None => false
  end.

Definition round_agrees_on_quarter (z : Z) : bool :=
  agrees_with_exact (of_int z / 4)%float.

Definition round_agrees_on_product (z : Z) : bool :=
  agrees_with_exact (of_int z * 1.60934)%float.

(** The kilometres of [z] miles in exact decimal arithmetic: the integer
    nearest to [z * 1.60934], a half rounding up. *)
Definition km_exact (z : Z) : Z := (z * 160934 + 50000) / 100000.

(** The same on machine integers, for the numbers that fit. *)
Definition km_exact63 (i : int) : int :=
  ((i * 160934 + 50000) / 100000)%uint63.

(** The conversion of [z] miles gives that very number. *)
Definition conversion_exact_ok (z : Z) : bool :=
  match convertDistance "" (VNum (of_int z)) (Some "km") with
  | Normal (VNum km) =>
      PrimFloat.Leibniz.eqb km (of_uint63 (km_exact63 (Uint63.of_Z z)))
  | _ => false
  end.

(** The spaces of a string. *)
Fixpoint count_spaces (s : string) : nat :=
  match s with
  | EmptyString => 0
  | String c r => ((if Ascii.eqb c " " then 1 else 0) + count_spaces r)%nat
  end.

(** The cards of the car page badged 'Needs Replacement', and the tasks
    flagged for replacement under another status. *)
Definition replacement_badges (tasks : list task) : Z :=
  Z.of_nat (length (filter (fun t => CarDetail.isReplacementRequested t = true) tasks)).

Definition flagged_under_other_status (tasks : list task) : Z :=
  Z.of_nat (length (filter
    (fun t => replacement_requested t = true /\ status t <> "replacement_requested")
    tasks)).

(** The tasks the dashboard selects from. *)
Definition due_or_overdue (tasks : list task) : list task :=
  filter (fun t => status t = "due_soon" \/ status t = "overdue") tasks.

(** A browser that has stored a language but no unit yet. *)
Definition sample_browser : browser :=
  {| localStorage := {[ "language" := "fr" ]}; document_lang := "en" |}.

(** An empty draft of a new task, as the form starts with. *)
Definition empty_draft : CarDetail.newTask :=
  {| CarDetail.task_type := "";
     CarDetail.description := "";
     CarDetail.last_performed_mileage := 0;
     CarDetail.interval_miles := 5000;
     CarDetail.interval_months := 6;
     CarDetail.notes := "" |}.

(** Tasks of a given status, for running the pages. *)
Definition sample_task_view (s : string) (flag : bool) : task :=
  {| id := "t"; task_type := "brake_fluid"; status := s;
     replacement_requested := flag; replacement_reason := None;
     last_performed_mileage := 0; next_due_mileage := 30000;
     interval_miles := 30000; interval_months := 24 |}.

(** A list in which two vehicles share the id ["c2"]. *)
Definition sample_cars_twice : list Dashboard.car :=
  [ Dashboard.mkCar "c1" 2020 "Toyota" "Camry" None;
    Dashboard.mkCar "c2" 1999 "Honda" "Civic" None;
    Dashboard.mkCar "c2" 2001 "Honda" "Accord" None ].
(* ===================================================================== *)
(** ** Facts about numbers                                               *)
(* ===================================================================== *)

Section Numbers.
Local Open Scope float_scope.

Lemma SFcompare_refl_finite s m e :
  SFcompare (S754_finite s m e) (S754_finite s m e) = Some Eq.
Proof.
  simpl. rewrite Z.compare_refl, Pos.compare_cont_refl. by destruct s.
Qed.

Lemma Prim2SF_zero : Prim2SF 0 = S754_zero false.
Proof. reflexivity. Qed.

Ltac by_cases m :=
  rewrite ?Prim2SF_zero;
  destruct (Prim2SF m) as [s|s| |s mm e] eqn:E;
  rewrite ?SFcompare_refl_finite; simpl; try done;
  try (by destruct s).

(** A number that compares with zero is not [NaN]. *)
Lemma leb_zero_not_nan (m : float) : (0 <=? m) = true -> is_nan m = false.
Proof.
  unfold is_nan. rewrite leb_spec, FloatAxioms.eqb_spec. unfold SFleb, SFeqb.
  by_cases m.
Qed.

(** The only numbers equal to zero are the two zeros. *)
Lemma is_zero_inv (m : float) : is_zero m = true -> m = 0 \/ m = -0.
Proof.
  unfold is_zero. rewrite FloatAxioms.eqb_spec. unfold SFeqb.
  by_cases m.
  intros _. rewrite <- (SF2Prim_Prim2SF m), E. destruct s; [by right | by left].
Qed.

(** A negative number is truthy. *)
Lemma ltb_zero_truthy (m : float) : (m <? 0) = true -> falsy (VNum m) = false.
Proof.
  unfold falsy, is_zero, is_nan. rewrite ltb_spec, !FloatAxioms.eqb_spec. unfold SFltb, SFeqb.
  by_cases m.
Qed.

Lemma SameValueZero_refl (x : float) : SameValueZero x x.
Proof. by left. Qed.
End Numbers.

Lemma Math_round_quarters : range_all 16001 round_agrees_on_quarter (-8000) = true.
Proof. vm_compute. reflexivity. Qed.

Lemma Math_round_products : range_all 20001 round_agrees_on_product (-10000) = true.
Proof. vm_compute. reflexivity. Qed.

(** Ties go towards +∞, a zero result keeps the sign of the argument, and
    what is not finite comes back as it is. *)
Example Math_round_samples :
  map Math_round
    [2.5; (-2.5); 0.5; (-0.5); (-0.2); 0.49999999999999994; 160.934;
     4503599627370495.5; 1e300; infinity; neg_infinity; nan; (-0)]%float
  = [3; (-2); 1; (-0); (-0); 0; 161;
     4503599627370496; 1e300; infinity; neg_infinity; nan; (-0)]%float.
Proof. vm_compute. reflexivity. Qed.

Example toLocaleString_en_US_samples :
  map toLocaleString_en_US [0; 161; 54600; 1234567.891; (-1234.0625); 0.5]%float
  = ["0"; "161"; "54,600"; "1,234,567.891"; "-1,234.063"; "0.5"].
Proof. vm_compute. reflexivity. Qed.

(** An ideographic space (U+3000) and a byte order mark (U+FEFF) are
    stripped like a space. *)
Example trim_samples :
  map trim [units "  oil leak  "; units "   "; []; units "x";
            [12288%N; 120%N; 65279%N]; [12288%N; 8232%N]]
  = [units "oil leak"; []; []; units "x"; [120%N]; []].
Proof. vm_compute. reflexivity. Qed.

(* ===================================================================== *)
(** ** The translation lookup                                            *)
(* ===================================================================== *)

Section Translation.
Variable translations : gmap string (gmap string string).
Variable builtin_get : string -> string -> completion any.

Lemma empty_true_iff (s : string) : empty s = true <-> s = "".
Proof. destruct s; simpl; split; congruence. Qed.

Lemma truthy_string (s : string) : s <> "" -> truthy (AString s) = true.
Proof. by destruct s. Qed.

Lemma en_not_inherited : Object_prototype !! "en" = None.
Proof. reflexivity. Qed.

(** Away from the inherited names the lookup is the table's own. *)
Lemma lookup_translation_own (lang key : string) :
  Object_prototype !! lang = None -> Object_prototype !! key = None ->
  lookup_translation translations builtin_get lang key
  = Normal (match own_translation translations lang key with
            | Some s => AString s
            | None => AUndefined
            end).
Proof.
  intros Hl Hk. unfold lookup_translation, translations_get, own_translation.
  destruct (translations !! lang) as [table|]; simpl.
  - destruct (table !! key); [done|]. by rewrite Hk.
  - by rewrite Hl.
Qed.

Lemma not_usable (translation : option string) :
  ~ usable translation -> translation = None \/ translation = Some "".
Proof.
  intros Hn. destruct translation as [[|c r]|]; [by right| |by left].
  exfalso. apply Hn. by eexists.
Qed.

(** The chain away from the inherited names: the first usable translation,
    else the key. *)
Lemma t_own (language key : string) :
  Object_prototype !! language = None -> Object_prototype !! key = None ->
  t translations language builtin_get key
  = Normal (AString
      match own_translation translations language key with
      | Some (String c r) => String c r
      | _ =>
          match own_translation translations "en" key with
          | Some (String c r) => String c r
          | _ => key
          end
      end).
Proof.
  intros Hl Hk. unfold t.
  rewrite (lookup_translation_own language key Hl Hk).
  rewrite (lookup_translation_own "en" key en_not_inherited Hk).
  destruct (own_translation translations language key) as [[|c r]|];
    destruct (own_translation translations "en" key) as [[|c' r']|]; try done;
    simpl; by destruct key.
Qed.

(** C10 (amended). For every language code and every key that do not name
    a member inherited from [Object.prototype], [t key] is a string (it is
    never [undefined] and nothing is thrown): the selected language's
    translation when there is one and it is not empty, otherwise the
    English translation when there is one and it is not empty, otherwise
    the key itself; an unsupported language code is a language without
    translations.  The table is the one of ../i18n/translations, whatever
    it holds. *)
Theorem t_fallback_chain (language key : string) :
  Object_prototype !! language = None -> Object_prototype !! key = None ->
  let selected := own_translation translations language key in
  let english := own_translation translations "en" key in
  (exists s, t translations language builtin_get key = Normal (AString s))
  /\ (forall s, selected = Some s -> s <> "" ->
        t translations language builtin_get key = Normal (AString s))
  /\ (~ usable selected -> forall s, english = Some s -> s <> "" ->
        t translations language builtin_get key = Normal (AString s))
  /\ (~ usable selected -> ~ usable english ->
        t translations language builtin_get key = Normal (AString key))
  /\ (translations !! language = None -> selected = None).
Proof.
  intros Hl Hk selected english. subst selected english.
  rewrite (t_own language key Hl Hk). split_and!.
  - by eexists.
  - intros s -> Hs. by destruct s.
  - intros [-> | ->]%not_usable s -> Hs; by destruct s.
  - by intros [-> | ->]%not_usable [-> | ->]%not_usable.
  - unfold own_translation. by intros ->.
Qed.
End Translation.

Lemma t_fallback_chain_witness :
  t sample_translations "fr" (fun _ _ => Normal AUndefined) "dashboard"
  = Normal (AString "Tableau de bord")
  /\ t sample_translations "fr" (fun _ _ => Normal AUndefined) "settings"
     = Normal (AString "Settings")
  /\ t sample_translations "xx" (fun _ _ => Normal AUndefined) "unknown.key"
     = Normal (AString "unknown.key").
Proof.
  pose proof (t_fallback_chain sample_translations (fun _ _ => Normal AUndefined)
                "fr" "dashboard" eq_refl eq_refl) as (_ & H1 & _).
  pose proof (t_fallback_chain sample_translations (fun _ _ => Normal AUndefined)
                "fr" "settings" eq_refl eq_refl) as (_ & _ & H2 & _).
  pose proof (t_fallback_chain sample_translations (fun _ _ => Normal AUndefined)
                "xx" "unknown.key" eq_refl eq_refl) as (_ & _ & _ & H3 & _).
  split; [|split].
  - apply H1; [vm_compute; reflexivity|discriminate].
  - apply H2; [|vm_compute; reflexivity|discriminate].
    intros (s & Hs & _). vm_compute in Hs. discriminate.
  - apply H3; intros (s & Hs & _); vm_compute in Hs; discriminate.
Defined.

(** C10, as stated, fails twice.  For the key ['constructor'] no table
    has a translation, yet [t] returns neither the key nor a translation
    but the function [Object], inherited by the English table, whatever
    the engine; and a French translation that is there but empty is
    passed over for the English one. *)
Lemma t_not_as_claimed :
  (forall builtin_get,
      t sample_translations "en" builtin_get "constructor"
      = Normal (AObject (Builtin "Object")))
  /\ own_translation sample_translations "en" "constructor" = None
  /\ (forall builtin_get,
        t sample_with_empty "fr" builtin_get "greeting" = Normal (AString "Hello"))
  /\ own_translation sample_with_empty "fr" "greeting" = Some "".
Proof. split_and!; try (intros builtin_get); vm_compute; reflexivity. Qed.

(* ===================================================================== *)
(** ** Distances: convertDistance and formatDistance                     *)
(* ===================================================================== *)

Section Distance.
Local Open Scope float_scope.
Variable distanceUnit : string.
Variable toLocaleString : float -> string.

(** An explicit unit overrides the selected one. *)
Lemma convertDistance_explicit_unit (v : Js.value) (unit : string) :
  convertDistance distanceUnit v (Some unit) = convertDistance "" v (Some unit).
Proof. reflexivity. Qed.

(** [convertDistance] always completes normally, with a number. *)
Lemma convertDistance_number (v : Js.value) (toUnit : option string) :
  exists x, convertDistance distanceUnit v toUnit = Normal (VNum x).
Proof.
  unfold convertDistance. destruct (falsy v) eqn:F; [by eexists|].
  destruct (String.eqb _ _); [by eexists|].
  destruct v; try discriminate. by eexists.
Qed.

(** C2. For every non-negative number [m] of miles, the conversion returns
    [m] unchanged when the unit is miles (any unit other than ["km"]), and
    [Math.round (m * 1.60934)] when the unit is kilometers, the unit being
    the explicit argument or else the selected one; equality is that of
    numbers (SameValueZero).  In particular 100 miles display as 100, and
    as 161 kilometers. *)
Theorem convertDistance_display (toUnit : option string) (m : float) :
  (0 <=? m) = true ->
  (exists shown,
      convertDistance distanceUnit (VNum m) toUnit = Normal (VNum shown)
      /\ (default distanceUnit toUnit <> "km" -> SameValueZero shown m)
      /\ (default distanceUnit toUnit = "km" ->
          SameValueZero shown (Math_round (m * 1.60934))))
  /\ convertDistance distanceUnit (VNum 100) (Some "miles") = Normal (VNum 100)
  /\ convertDistance distanceUnit (VNum 100) (Some "km") = Normal (VNum 161).
Proof.
  intros Hm. split; [|split; reflexivity].
  unfold convertDistance. destruct (falsy (VNum m)) eqn:F.
  - exists 0. split; [done|].
    simpl in F. rewrite (leb_zero_not_nan m Hm), orb_false_r in F.
    destruct (is_zero_inv m F) as [-> | ->]; split; intros _.
    + by left.
    + by left.
    + by right.
    + by right.
  - destruct (String.eqb_spec (default distanceUnit toUnit) "km") as [E|E].
    + eexists. split; [done|]. split; [done|]. intros _. apply SameValueZero_refl.
    + eexists. split; [done|]. split; [|done]. intros _. apply SameValueZero_refl.
Qed.

Lemma append_length (a b : string) :
  String.length (a +:+ b) = (String.length a + String.length b)%nat.
Proof. induction a as [|c a IH]; simpl; [done|by rewrite IH]. Qed.

(** C4 (amended). A missing distance ([undefined], [null] or [NaN])
    formats as the fixed string ["N/A"], whatever the language; a zero
    distance with the unit suffix enabled formats as the rendered number
    zero, a space and the unit suffix (["0 mi"] in en-US), which is never
    the placeholder. *)
Theorem formatDistance_missing_or_zero (showUnit : bool) :
  formatDistance distanceUnit toLocaleString VUndefined showUnit = Normal "N/A"
  /\ formatDistance distanceUnit toLocaleString VNull showUnit = Normal "N/A"
  /\ formatDistance distanceUnit toLocaleString (VNum nan) showUnit = Normal "N/A"
  /\ formatDistance distanceUnit toLocaleString (VNum 0) true
     = Normal (toLocaleString 0 +:+ " " +:+ getDistanceUnitShort distanceUnit)
  /\ formatDistance distanceUnit toLocaleString (VNum 0) true <> Normal "N/A".
Proof.
  repeat split.
  intros H. unfold formatDistance in H. simpl in H. injection H as H.
  pose proof (f_equal String.length H) as Hlen. rewrite !append_length in Hlen.
  destruct (toLocaleString 0) as [|c r].
  - by destruct (String.eqb distanceUnit "km").
  - destruct (String.eqb distanceUnit "km"); simpl in Hlen; lia.
Qed.

(** C5 (amended). A negative distance is not rejected: the conversion
    returns it unchanged in miles and [Math.round (m * 1.60934)] in
    kilometers, and the formatting renders that number, with the unit
    suffix when asked; nothing is thrown. *)
Theorem negative_distance_converted (toUnit : option string) (showUnit : bool) (m : float) :
  (m <? 0) = true ->
  convertDistance distanceUnit (VNum m) toUnit
  = Normal (VNum (if String.eqb (default distanceUnit toUnit) "km"
                  then Math_round (m * 1.60934) else m))
  /\ formatDistance distanceUnit toLocaleString (VNum m) showUnit
     = Normal (let rendered :=
                 toLocaleString (if String.eqb distanceUnit "km"
                                 then Math_round (m * 1.60934) else m) in
               if showUnit
               then rendered +:+ " " +:+ getDistanceUnitShort distanceUnit
               else rendered).
Proof.
  intros Hm. pose proof (ltb_zero_truthy m Hm) as F.
  unfold formatDistance, convertDistance, getDistanceUnitShort. rewrite F. simpl.
  split; [by destruct (String.eqb _ _)|].
  by destruct (String.eqb distanceUnit "km").
Qed.
End Distance.

Lemma convertDistance_display_witness :
  exists shown,
    convertDistance "miles" (VNum 54600) (Some "km") = Normal (VNum shown)
    /\ SameValueZero shown (Math_round (54600 * 1.60934)%float).
Proof.
  destruct (convertDistance_display "miles" (Some "km") 54600%float)
    as [(shown & H & _ & Hkm) _]; [reflexivity|].
  exists shown. split; [exact H|]. apply Hkm. reflexivity.
Defined.

(** C4, as stated, fails on zero: [formatDistance(0)] is ["0 mi"]. *)
Lemma formatDistance_zero_is_rendered :
  formatDistance "miles" toLocaleString_en_US (VNum 0) true = Normal "0 mi"
  /\ formatDistance "miles" toLocaleString_en_US (VNum 0) true <> Normal "N/A".
Proof. split; [vm_compute; reflexivity|vm_compute; discriminate]. Qed.

(** C5, as stated, fails: minus five miles convert to minus eight
    kilometers and format as ["-8 km"]. *)
Lemma negative_distance_not_rejected :
  convertDistance "km" (VNum (-5)) (Some "km") = Normal (VNum (-8))
  /\ convertDistance "km" (VNum (-5)) (Some "km") <> Throw ValidationError
  /\ formatDistance "km" toLocaleString_en_US (VNum (-5)) true = Normal "-8 km"
  /\ formatDistance "km" toLocaleString_en_US (VNum (-5)) true <> Throw ValidationError.
Proof. repeat split; try (vm_compute; reflexivity); vm_compute; discriminate. Qed.

Lemma negative_distance_converted_witness :
  convertDistance "km" (VNum (-5)) None = Normal (VNum (-8))
  /\ formatDistance "km" toLocaleString_en_US (VNum (-5)) true = Normal "-8 km".
Proof.
  destruct (negative_distance_converted "km" toLocaleString_en_US None true (-5)%float)
    as [H1 H2]; [reflexivity|].
  split; [rewrite H1|rewrite H2]; vm_compute; reflexivity.
Defined.

(* ===================================================================== *)
(** ** Miles to kilometers and back                                      *)
(* ===================================================================== *)

Lemma range_all_sound (p : positive) (f : Z -> bool) :
  forall lo, range_all p f lo = true ->
  forall z, lo <= z < lo + Z.pos p -> f z = true.
Proof.
  induction p as [q IH|q IH|]; simpl; intros lo H z Hz.
  - apply andb_prop in H as [H H3]. apply andb_prop in H as [H1 H2].
    destruct (Z.lt_ge_cases z (lo + Z.pos q)); [apply (IH lo H1); lia|].
    destruct (Z.lt_ge_cases z (lo + Z.pos q + Z.pos q)); [apply (IH _ H2); lia|].
    by replace z with (lo + Z.pos q + Z.pos q) by lia.
  - apply andb_prop in H as [H1 H2].
    destruct (Z.lt_ge_cases z (lo + Z.pos q)); [apply (IH lo H1)|apply (IH _ H2)]; lia.
  - by replace z with lo by lia.
Qed.

(** Every whole number of miles up to a million, checked one by one on the
    floating-point operations themselves. *)
Lemma roundtrip_checked : range_all 1000001 roundtrip_ok 0 = true.
Proof. vm_compute. reflexivity. Qed.

Lemma roundtrip_ok_range (z : Z) : 0 <= z <= 1000000 -> roundtrip_ok z = true.
Proof. intros Hz. apply (range_all_sound 1000001 roundtrip_ok 0 roundtrip_checked). lia. Qed.

(** C6. For every integer [m] from 0 to 1,000,000, converting [m] miles to
    kilometers for display and the result back to miles with [toCanonical]
    gives a value within one mile of [m]. *)
Theorem km_roundtrip (distanceUnit : string) (z : Z) :
  0 <= z <= 1000000 ->
  exists km,
    convertDistance distanceUnit (VNum (of_int z)) (Some "km") = Normal (VNum km)
    /\ (abs (UnitConverter.toCanonical km "km" - of_int z) <=? 1)%float = true.
Proof.
  intros Hz. pose proof (roundtrip_ok_range z Hz) as H. unfold roundtrip_ok in H.
  rewrite convertDistance_explicit_unit.
  destruct (convertDistance "" (VNum (of_int z)) (Some "km")) as [[| |km]|]; try done.
  exists km. split; [done|]. by apply andb_prop in H as [H _].
Qed.

(** The round trip even returns the very number it started from. *)
Lemma km_roundtrip_exact (distanceUnit : string) (z : Z) :
  0 <= z <= 1000000 ->
  exists km,
    convertDistance distanceUnit (VNum (of_int z)) (Some "km") = Normal (VNum km)
    /\ (UnitConverter.toCanonical km "km" =? of_int z)%float = true.
Proof.
  intros Hz. pose proof (roundtrip_ok_range z Hz) as H. unfold roundtrip_ok in H.
  rewrite convertDistance_explicit_unit.
  destruct (convertDistance "" (VNum (of_int z)) (Some "km")) as [[| |km]|]; try done.
  exists km. split; [done|]. by apply andb_prop in H as [_ H].
Qed.

Lemma km_roundtrip_witness :
  exists km,
    convertDistance "miles" (VNum (of_int 54600)) (Some "km") = Normal (VNum km)
    /\ (abs (UnitConverter.toCanonical km "km" - of_int 54600) <=? 1)%float = true.
Proof. apply (km_roundtrip "miles" 54600). lia. Defined.

(* ===================================================================== *)
(** ** The car page: badge, tally, replacement request                   *)
(* ===================================================================== *)

(** C3. For every task record, when [replacement_requested] is true the
    card shows the task as 'Needs Replacement', in the purple styling,
    whatever its status, mileage and interval fields are. *)
Theorem replacement_flag_overrides (t : task) :
  replacement_requested t = true ->
  CarDetail.isReplacementRequested t = true
  /\ CarDetail.badgeLabel t = "Needs Replacement"
  /\ CarDetail.badgeClass t
     = "bg-purple-100 text-purple-700 dark:bg-purple-900/30 dark:text-purple-400".
Proof.
  intros H. unfold CarDetail.badgeLabel, CarDetail.badgeClass, CarDetail.isReplacementRequested.
  rewrite H, orb_true_r. done.
Qed.

Lemma replacement_flag_overrides_witness :
  CarDetail.badgeLabel
    {| id := "t1"; task_type := "oil_change"; status := "overdue";
       replacement_requested := true; replacement_reason := Some "leaking";
       last_performed_mileage := 50000; next_due_mileage := 55000;
       interval_miles := 5000; interval_months := 6 |}
  = "Needs Replacement".
Proof. apply replacement_flag_overrides. reflexivity. Defined.

Section Tally.
Import CarDetail.

Ltac label_in := rewrite !elem_of_cons; repeat first [by left | right].
Ltac label_out := rewrite !not_elem_of_cons; repeat split; try done; apply not_elem_of_nil.
Ltac label_solver :=
  solve [ label_in | let H := fresh in intros H; apply H; label_in | label_out ].

Lemma lookup_counts_other (g d o r : Z) (s : string) :
  s ∉ ["good"; "due_soon"; "overdue"; "replacement_requested"] ->
  counts_of g d o r !! s = None.
Proof.
  intros Hs. unfold counts_of.
  rewrite !lookup_insert_ne, lookup_singleton_ne; [done|..];
    intros <-; apply Hs; label_solver.
Qed.

(** One step of the [forEach] on a counts object of the expected shape. *)
Lemma count_task_step (g d o r : Z) (t : task) :
  count_task (counts_of g d o r) t =
  if decide (status t = "due_soon") then counts_of g (d + 1) o r
  else if decide (status t = "overdue") then counts_of g d (o + 1) r
  else if decide (status t = "replacement_requested") then counts_of g d o (r + 1)
  else counts_of (g + 1) d o r.
Proof.
  unfold count_task.
  destruct (decide (status t = "due_soon")) as [->|H1]; [done|].
  destruct (decide (status t = "overdue")) as [->|H2]; [done|].
  destruct (decide (status t = "replacement_requested")) as [->|H3]; [done|].
  destruct (decide (status t = "good")) as [->|H4]; [done|].
  rewrite lookup_counts_other by label_solver.
  destruct (decide (is_Some None)) as [[? ?]|_]; done.
Qed.

Lemma with_status_cons (s : string) (t : task) (tasks : list task) :
  with_status s (t :: tasks)
  = (if decide (status t = s) then 1 else 0) + with_status s tasks.
Proof.
  unfold with_status. rewrite filter_cons.
  destruct (decide (status t = s)); simpl length; lia.
Qed.

Lemma without_label_cons (t : task) (tasks : list task) :
  without_label (t :: tasks)
  = (if decide (status t ∉ ["due_soon"; "overdue"; "replacement_requested"])
     then 1 else 0) + without_label tasks.
Proof.
  unfold without_label. rewrite filter_cons.
  destruct (decide _); simpl length; lia.
Qed.

Lemma foldl_count_task (tasks : list task) : forall g d o r,
  foldl count_task (counts_of g d o r) tasks
  = counts_of (g + without_label tasks) (d + with_status "due_soon" tasks)
      (o + with_status "overdue" tasks)
      (r + with_status "replacement_requested" tasks).
Proof.
  induction tasks as [|t tasks IH]; intros g d o r.
  - unfold without_label, with_status. simpl. by rewrite !Z.add_0_r.
  - simpl foldl. rewrite count_task_step, !with_status_cons, without_label_cons.
    destruct (decide (status t = "due_soon")) as [E1|N1].
    { rewrite IH, E1. rewrite decide_False by label_solver.
      simpl. f_equal; lia. }
    destruct (decide (status t = "overdue")) as [E2|N2].
    { rewrite IH, E2. rewrite decide_False by label_solver.
      simpl. f_equal; lia. }
    destruct (decide (status t = "replacement_requested")) as [E3|N3].
    { rewrite IH, E3. rewrite decide_False by label_solver.
      simpl. f_equal; lia. }
    rewrite IH. rewrite decide_True by label_solver. f_equal; lia.
Qed.

Lemma tallies_partition (tasks : list task) :
  without_label tasks + with_status "due_soon" tasks + with_status "overdue" tasks
  + with_status "replacement_requested" tasks = Z.of_nat (length tasks).
Proof.
  induction tasks as [|t tasks IH]; [done|].
  rewrite !with_status_cons, without_label_cons.
  change (length (t :: tasks)) with (S (length tasks)).
  destruct (decide (status t = "due_soon")) as [E1|N1].
  { rewrite E1, decide_False by label_solver. simpl. lia. }
  destruct (decide (status t = "overdue")) as [E2|N2].
  { rewrite E2, decide_False by label_solver. simpl. lia. }
  destruct (decide (status t = "replacement_requested")) as [E3|N3].
  { rewrite E3, decide_False by label_solver. simpl. lia. }
  rewrite decide_True by label_solver. lia.
Qed.

(** C9. For every list of tasks the tally is an object of four counts,
    none negative, whose sum is the number of tasks: ["due_soon"],
    ["overdue"] and ["replacement_requested"] count the tasks of that
    status, and ["good"] counts all the others, a task whose status is no
    label at all included. *)
Theorem getStatusCounts_tally (tasks : list task) :
  getStatusCounts tasks
  = counts_of (without_label tasks) (with_status "due_soon" tasks)
      (with_status "overdue" tasks) (with_status "replacement_requested" tasks)
  /\ 0 <= without_label tasks
  /\ 0 <= with_status "due_soon" tasks
  /\ 0 <= with_status "overdue" tasks
  /\ 0 <= with_status "replacement_requested" tasks
  /\ without_label tasks + with_status "due_soon" tasks + with_status "overdue" tasks
     + with_status "replacement_requested" tasks = Z.of_nat (length tasks).
Proof.
  split.
  - unfold getStatusCounts, zero_counts.
    change ({[ "good" := 0; "due_soon" := 0; "overdue" := 0;
               "replacement_requested" := 0 ]} : gmap string Z)
      with (counts_of 0 0 0 0).
    by rewrite foldl_count_task.
  - unfold without_label, with_status at 1 2 3.
    repeat (split; [lia|]). apply tallies_partition.
Qed.
End Tally.

(* ===================================================================== *)
(** ** The dashboard's upcoming maintenance                              *)
(* ===================================================================== *)

Lemma insert_sorted_perm {A} (cmp : A -> A -> Z) (x : A) (l : list A) :
  insert_sorted cmp x l ≡ₚ x :: l.
Proof.
  induction l as [|y l IH]; simpl; [done|].
  destruct (cmp y x <=? 0); [|done].
  rewrite IH. apply Permutation_swap.
Qed.

Lemma sort_insertion_perm {A} (cmp : A -> A -> Z) (l : list A) :
  sort_insertion cmp l ≡ₚ l.
Proof.
  unfold sort_insertion.
  assert (forall acc, foldl (fun acc x => insert_sorted cmp x acc) acc l ≡ₚ acc ++ l) as H.
  { induction l as [|x l IH]; intros acc; simpl.
    - by rewrite app_nil_r.
    - rewrite IH, insert_sorted_perm. simpl. apply Permutation_middle. }
  apply (H []).
Qed.

(** C8. For every list of tasks, whatever order the engine's [sort] leaves
    its argument in (it permutes it), the 'Upcoming Maintenance' selection
    holds only tasks whose status is [due_soon] or [overdue], all taken
    from the input, and at most five of them. *)
Theorem upcomingTasks_selection
    (sort : (task -> task -> Z) -> list task -> list task) (tasks : list task) :
  (forall cmp l, sort cmp l ≡ₚ l) ->
  Forall (fun t => status t = "due_soon" \/ status t = "overdue")
    (Dashboard.upcomingTasks sort tasks)
  /\ (length (Dashboard.upcomingTasks sort tasks) <= 5)%nat
  /\ Dashboard.upcomingTasks sort tasks ⊆ tasks.
Proof.
  intros Hsort. unfold Dashboard.upcomingTasks. split; [|split].
  - apply Forall_take. rewrite Hsort. apply Forall_forall.
    intros t Ht. by apply list_elem_of_filter in Ht as [Ht _].
  - rewrite length_take. lia.
  - intros t Ht. apply subseteq_take in Ht. rewrite Hsort in Ht.
    by apply list_elem_of_filter in Ht as [_ Ht].
Qed.

Lemma upcomingTasks_selection_witness :
  let t s := {| id := "t"; task_type := "brakes"; status := s;
                replacement_requested := false; replacement_reason := None;
                last_performed_mileage := 0; next_due_mileage := 30000;
                interval_miles := 30000; interval_months := 24 |} in
  let tasks := [t "good"; t "due_soon"; t "overdue"; t "due_soon"; t "overdue";
                t "replacement_requested"; t "overdue"; t "due_soon"] in
  (length (Dashboard.upcomingTasks sort_insertion tasks) <= 5)%nat.
Proof.
  intros t tasks.
  apply (upcomingTasks_selection sort_insertion tasks).
  intros cmp l. apply sort_insertion_perm.
Defined.

(* ===================================================================== *)
(** ** Requesting a replacement                                          *)
(* ===================================================================== *)

Lemma trimStart_all_white_space (s : list N) :
  all_white_space s = true -> trimStart s = [].
Proof.
  induction s as [|c r IH]; simpl; [done|].
  intros [Hc Hr]%andb_prop. rewrite Hc. by apply IH.
Qed.

Lemma trimEnd_keeps_black (c : N) (r : list N) :
  is_white_space c = false -> trimEnd (c :: r) <> [].
Proof. intros Hc. simpl. rewrite Hc. by destruct (trimEnd r). Qed.

Lemma trimStart_black (s : list N) :
  all_white_space s = false ->
  exists c r, trimStart s = c :: r /\ is_white_space c = false.
Proof.
  induction s as [|c r IH]; simpl; [done|].
  destruct (is_white_space c) eqn:Hc; simpl; [exact IH|]. intros _. by exists c, r.
Qed.

(** [!reason.trim()] holds exactly of the reasons made of white space. *)
Lemma empty_trim (s : list N) : empty_units (trim s) = all_white_space s.
Proof.
  unfold trim. destruct (all_white_space s) eqn:H.
  - by rewrite trimStart_all_white_space.
  - destruct (trimStart_black s H) as (c & r & -> & Hc).
    pose proof (trimEnd_keeps_black c r Hc). by destruct (trimEnd (c :: r)).
Qed.

Lemma not_all_white_space_not_empty (s : list N) :
  all_white_space s = false -> empty_units s = false.
Proof. by destruct s. Qed.

(** C7. With an empty or white-space-only reason (any of the characters
    [trim] strips, in any script) the handler reports the validation error
    in a toast and does nothing else: no request is made, the stored tasks
    and the dialog are as before.  With any other reason, for a task the
    server holds, the request succeeds: the task has [replacementRequested]
    set and the reason (as typed) stored, its type, mileage, date and
    interval fields and every other task are untouched, and the page
    reports success, closes the dialog and reloads. *)
Theorem handleRequestReplacement_reason (taskId : string) (w : CarDetail.world) :
  let w' := CarDetail.handleRequestReplacement taskId w in
  (all_white_space (CarDetail.replacementReason w) = true ->
     CarDetail.effects w'
     = (CarDetail.effects w
        ++ [CarDetail.toast_error "Please provide a reason for replacement"])%list
     /\ CarDetail.db w' = CarDetail.db w
     /\ CarDetail.replacementOpen w' = CarDetail.replacementOpen w
     /\ CarDetail.replacementReason w' = CarDetail.replacementReason w)
  /\ (all_white_space (CarDetail.replacementReason w) = false ->
      forall task, CarDetail.db w !! taskId = Some task ->
      exists task',
        CarDetail.db w' !! taskId = Some task'
        /\ Backend.replacementRequested task' = true
        /\ Backend.replacementReason task' = Some (CarDetail.replacementReason w)
        /\ Backend.taskType task' = Backend.taskType task
        /\ Backend.lastPerformedMileage task' = Backend.lastPerformedMileage task
        /\ Backend.lastPerformedDate task' = Backend.lastPerformedDate task
        /\ Backend.intervalMiles task' = Backend.intervalMiles task
        /\ Backend.intervalMonths task' = Backend.intervalMonths task
        /\ (forall other, other <> taskId ->
              CarDetail.db w' !! other = CarDetail.db w !! other)
        /\ CarDetail.effects w'
           = (CarDetail.effects w
              ++ [CarDetail.toast_success "Replacement requested!";
                  CarDetail.fetchCarData])%list
        /\ CarDetail.replacementOpen w' = None
        /\ CarDetail.replacementReason w' = []).
Proof.
  intros w'. subst w'. unfold CarDetail.handleRequestReplacement.
  rewrite empty_trim. split.
  - intros ->. done.
  - intros Hr task Htask. rewrite Hr.
    unfold Backend.request_replacement.
    rewrite Htask, (not_all_white_space_not_empty _ Hr). simpl.
    eexists. split; [apply lookup_insert_eq|]. simpl.
    split_and!; try done.
    + intros other Ho. by rewrite lookup_insert_ne.
    + by rewrite <- app_assoc.
Qed.

(** A reason of one ideographic space and one space is turned down; a
    reason with spaces around its text is stored with them. *)
Lemma handleRequestReplacement_reason_witness :
  CarDetail.db (CarDetail.handleRequestReplacement "t1" (sample_world [12288%N; 32%N]))
  = {[ "t1" := sample_task ]}
  /\ exists task',
      CarDetail.db
        (CarDetail.handleRequestReplacement "t1" (sample_world (units " oil leak ")))
        !! "t1" = Some task'
      /\ Backend.replacementRequested task' = true
      /\ Backend.replacementReason task' = Some (units " oil leak ").
Proof.
  split.
  - destruct (handleRequestReplacement_reason "t1" (sample_world [12288%N; 32%N]))
      as [H _].
    destruct H as (_ & H & _); [reflexivity|exact H].
  - destruct (handleRequestReplacement_reason "t1" (sample_world (units " oil leak ")))
      as [_ H].
    destruct (H eq_refl sample_task eq_refl) as (task' & H1 & H2 & H3 & _).
    exists task'. repeat split; assumption.
Defined.

(* ===================================================================== *)
(** ** The status engine                                                 *)
(* ===================================================================== *)

Section Calendar.
Import StatusEngine.

Ltac month_cases m :=
  let H := fresh in
  assert (m = 1 \/ m = 2 \/ m = 3 \/ m = 4 \/ m = 5 \/ m = 6 \/ m = 7 \/ m = 8
          \/ m = 9 \/ m = 10 \/ m = 11 \/ m = 12) as H by lia;
  repeat (destruct H as [H|H]; [subst m|]); [..|subst m].

Lemma days_in_month_bounds (y m : Z) : 28 <= days_in_month y m <= 31.
Proof.
  unfold days_in_month.
  repeat match goal with |- context [if ?b then _ else _] => destruct b end; lia.
Qed.

(** The days before a month, as the table one would write by hand. *)
Lemma days_before_month_table (y m : Z) :
  1 <= m <= 12 ->
  days_before_month y m
  = if m =? 1 then 0 else if m =? 2 then 31
    else leap_day y
         + (if m =? 3 then 59 else if m =? 4 then 90 else if m =? 5 then 120
            else if m =? 6 then 151 else if m =? 7 then 181 else if m =? 8 then 212
            else if m =? 9 then 243 else if m =? 10 then 273
            else if m =? 11 then 304 else 334).
Proof.
  intros Hm. unfold leap_day, days_before_month.
  month_cases m;
    match goal with
    | |- context [seqZ ?a ?b] =>
        let l := eval vm_compute in (seqZ a b) in change (seqZ a b) with l
    end;
    unfold days_in_month; simpl; destruct (is_leap_year y); lia.
Qed.

Lemma div_pred_4 y : (y - 1) / 4 = y / 4 - (if y mod 4 =? 0 then 1 else 0).
Proof. destruct (Z.eqb_spec (y mod 4) 0); Z.div_mod_to_equations; lia. Qed.
Lemma div_pred_100 y : (y - 1) / 100 = y / 100 - (if y mod 100 =? 0 then 1 else 0).
Proof. destruct (Z.eqb_spec (y mod 100) 0); Z.div_mod_to_equations; lia. Qed.
Lemma div_pred_400 y : (y - 1) / 400 = y / 400 - (if y mod 400 =? 0 then 1 else 0).
Proof. destruct (Z.eqb_spec (y mod 400) 0); Z.div_mod_to_equations; lia. Qed.
Lemma mod_400_100 y : y mod 400 = 0 -> y mod 100 = 0.
Proof. Z.div_mod_to_equations; lia. Qed.
Lemma mod_100_4 y : y mod 100 = 0 -> y mod 4 = 0.
Proof. Z.div_mod_to_equations; lia. Qed.
Lemma days_before_next_year (y : Z) :
  days_before_year (y + 1) = days_before_year y + 365 + leap_day y.
Proof.
  unfold days_before_year, leap_day, is_leap_year. cbv zeta.
  replace (y + 1 - 1) with y by lia.
  rewrite div_pred_4, div_pred_100, div_pred_400.
  pose proof (mod_400_100 y). pose proof (mod_100_4 y).
  destruct (Z.eqb_spec (y mod 4) 0); destruct (Z.eqb_spec (y mod 100) 0);
    destruct (Z.eqb_spec (y mod 400) 0); simpl; lia.
Qed.
Lemma days_before_year_mono (y1 y2 : Z) :
  y1 <= y2 -> days_before_year y1 <= days_before_year y2.
Proof.
  intros H. unfold days_before_year. cbv zeta.
  assert ((y1 - 1) / 4 <= (y2 - 1) / 4) by (apply Z.div_le_mono; lia).
  assert ((y1 - 1) / 400 <= (y2 - 1) / 400) by (apply Z.div_le_mono; lia).
  assert ((y2 - 1) / 100 - (y1 - 1) / 100 <= y2 - y1) by (Z.div_mod_to_equations; lia).
  lia.
Qed.

(** Within a year the day of the year respects the calendar. *)
Lemma day_of_year_bounds (d : date) :
  valid_date d ->
  1 <= days_before_month (year d) (month d) + day d <= 365 + leap_day (year d).
Proof.
  destruct d as [y m dd]. unfold valid_date. simpl. intros [Hm Hd].
  rewrite days_before_month_table by done. revert Hd.
  unfold leap_day, days_in_month. month_cases m; simpl; destruct (is_leap_year y); lia.
Qed.

Lemma day_of_year_month_lt (y m1 d1 m2 d2 : Z) :
  1 <= m1 -> m1 < m2 -> m2 <= 12 ->
  d1 <= days_in_month y m1 -> 1 <= d2 ->
  days_before_month y m1 + d1 < days_before_month y m2 + d2.
Proof.
  intros H1 H12 H2 Hd1 Hd2.
  rewrite !days_before_month_table by lia. revert Hd1.
  unfold leap_day, days_in_month.
  month_cases m1; simpl; month_cases m2; simpl; try lia; destruct (is_leap_year y); lia.
Qed.

Lemma day_number_lt (a b : date) :
  valid_date a -> valid_date b -> date_lt a b -> day_number a < day_number b.
Proof.
  intros Ha Hb Hlt. unfold day_number.
  pose proof (day_of_year_bounds a Ha) as Ba.
  pose proof (day_of_year_bounds b Hb) as Bb.
  destruct Ha as [Hma Hda], Hb as [Hmb Hdb].
  destruct Hlt as [Hy | [Hy [Hm | [Hm Hd]]]].
  - pose proof (days_before_next_year (year a)) as Hn.
    pose proof (days_before_year_mono (year a + 1) (year b)). lia.
  - rewrite Hy in *.
    pose proof (day_of_year_month_lt (year b) (month a) (day a) (month b) (day b)). lia.
  - rewrite Hy, Hm. lia.
Qed.

(** The running day number orders dates as the calendar does. *)
Lemma date_le_day_number (a b : date) :
  valid_date a -> valid_date b ->
  date_le a b <-> day_number a <= day_number b.
Proof.
  intros Ha Hb. split.
  - intros Hle.
    destruct (decide (year a = year b /\ month a = month b /\ day a = day b))
      as [(Hy & Hm & Hd)|Hne].
    + unfold day_number. rewrite Hy, Hm, Hd. lia.
    + apply Z.lt_le_incl, day_number_lt; try done.
      unfold date_le in Hle. unfold date_lt. lia.
  - intros Hle.
    destruct (decide (date_lt b a)) as [Hlt|Hn].
    + apply day_number_lt in Hlt; try done. lia.
    + unfold date_lt in Hn. unfold date_le. lia.
Qed.

Lemma add_months_valid (d : date) (n : Z) : valid_date d -> valid_date (add_months d n).
Proof.
  unfold valid_date, add_months. simpl. intros [Hm Hd].
  pose proof (days_in_month_bounds ((year d * 12 + (month d - 1) + n) / 12)
                ((year d * 12 + (month d - 1) + n) mod 12 + 1)).
  pose proof (Z.mod_pos_bound (year d * 12 + (month d - 1) + n) 12).
  lia.
Qed.
End Calendar.

Section Classification.
Import StatusEngine.

(** The replacement flag comes first in the engine too. *)
Lemma evaluate_replacement (i : input) :
  intervalMiles i > 0 -> intervalMonths i > 0 -> replacementRequested i = true ->
  exists out, evaluate i = Normal out /\ StatusEngine.status out = replacement_requested.
Proof.
  intros Hmi Hmo Hr. unfold evaluate.
  destruct (Z.leb_spec (intervalMiles i) 0); [lia|].
  destruct (Z.leb_spec (intervalMonths i) 0); [lia|]. simpl.
  eexists. split; [done|]. simpl. by rewrite Hr.
Qed.

(** C1. For every task with positive intervals and no replacement
    requested, evaluated between valid calendar dates, the engine computes
    nextDueMileage = lastPerformedMileage + intervalMiles (and the due date
    intervalMonths months after the last service) and classifies the task
    as overdue whenever the current mileage has reached the due mileage OR
    today has reached the due date; otherwise as due_soon whenever at most
    500 miles OR at most 14 days remain; otherwise as good. *)
Theorem status_classification (i : input) :
  intervalMiles i > 0 -> intervalMonths i > 0 -> replacementRequested i = false ->
  valid_date (lastPerformedDate i) -> valid_date (today i) ->
  exists out,
    evaluate i = Normal out
    /\ nextDueMileage out = lastPerformedMileage i + intervalMiles i
    /\ nextDueDate out = add_months (lastPerformedDate i) (intervalMonths i)
    /\ let overdue_now :=
         currentMileage i >= nextDueMileage out \/ date_le (nextDueDate out) (today i) in
       let due_shortly :=
         nextDueMileage out - currentMileage i <= 500
         \/ days_between (today i) (nextDueDate out) <= 14 in
       (overdue_now -> StatusEngine.status out = overdue)
       /\ (~ overdue_now -> due_shortly -> StatusEngine.status out = due_soon)
       /\ (~ overdue_now -> ~ due_shortly -> StatusEngine.status out = good).
Proof.
  intros Hmi Hmo Hr Hlast Htoday. unfold evaluate.
  destruct (Z.leb_spec (intervalMiles i) 0); [lia|].
  destruct (Z.leb_spec (intervalMonths i) 0); [lia|]. simpl.
  eexists. split; [done|]. simpl. split; [done|]. split; [done|].
  rewrite Hr.
  pose proof (add_months_valid (lastPerformedDate i) (intervalMonths i) Hlast) as Hdue.
  rewrite (date_le_day_number _ _ Hdue Htoday).
  unfold classify, days_between, DUE_SOON_MILES_THRESHOLD, DUE_SOON_DAYS_THRESHOLD.
  set (due := day_number (add_months (lastPerformedDate i) (intervalMonths i))).
  set (now := day_number (today i)).
  set (next := lastPerformedMileage i + intervalMiles i).
  destruct (Z.leb_spec (next - currentMileage i) 0);
    destruct (Z.leb_spec (due - now) 0); simpl;
    [split; [done|split; intros; lia] ..|].
  destruct (Z.leb_spec (next - currentMileage i) 500);
    destruct (Z.leb_spec (due - now) 14); simpl;
    (split; [intros; lia|split; [intros; (done || lia)|intros; (done || lia)]]).
Qed.
End Classification.

Lemma status_classification_witness :
  exists out,
    StatusEngine.evaluate (scenario 54600) = Normal out
    /\ StatusEngine.nextDueMileage out = 55000
    /\ StatusEngine.nextDueDate out = StatusEngine.mkDate 2024 7 15
    /\ StatusEngine.status out = StatusEngine.due_soon.
Proof.
  destruct (status_classification (scenario 54600))
    as (out & Hout & Hmiles & Hdate & _ & Hsoon & _);
    [reflexivity|reflexivity|reflexivity| | |].
  - repeat split; vm_compute; congruence.
  - repeat split; vm_compute; congruence.
  - assert (StatusEngine.nextDueMileage out = 55000) as Hm
      by (rewrite Hmiles; reflexivity).
    assert (StatusEngine.nextDueDate out = StatusEngine.mkDate 2024 7 15) as Hd
      by (rewrite Hdate; reflexivity).
    exists out. split; [exact Hout|]. split; [exact Hm|]. split; [exact Hd|].
    apply Hsoon.
    + rewrite Hm, Hd. unfold StatusEngine.date_le, scenario. simpl. lia.
    + left. rewrite Hm. unfold scenario. simpl. lia.
Defined.

(** The second scenario: 200 miles past the due mileage. *)
Example scenario_overdue :
  StatusEngine.status <$> (match StatusEngine.evaluate (scenario 55200) with
                           | Normal out => Some out
                           | Throw _ => None
                           end) = Some StatusEngine.overdue.
Proof. vm_compute. reflexivity. Qed.

Example add_months_clamps :
  StatusEngine.add_months (StatusEngine.mkDate 2023 1 31) 1 = StatusEngine.mkDate 2023 2 28
  /\ StatusEngine.add_months (StatusEngine.mkDate 2024 1 31) 1 = StatusEngine.mkDate 2024 2 29.
Proof. split; reflexivity. Qed.

(* ===================================================================== *)
(** ** More on distances                                                 *)
(* ===================================================================== *)

Lemma conversion_exact_checked : range_all 1000001 conversion_exact_ok 0 = true.
Proof. vm_compute. reflexivity. Qed.

Lemma km_exact63_spec (z : Z) :
  0 <= z <= 1000000 -> km_exact63 (Uint63.of_Z z) = Uint63.of_Z (km_exact z).
Proof.
  intros Hz. apply Uint63.to_Z_inj. unfold km_exact63, km_exact.
  rewrite Uint63Axioms.div_spec, Uint63Axioms.add_spec, Uint63Axioms.mul_spec, !Uint63.of_Z_spec.
  change (Uint63Axioms.to_Z 160934%uint63) with 160934.
  change (Uint63Axioms.to_Z 50000%uint63) with 50000.
  change (Uint63Axioms.to_Z 100000%uint63) with 100000.
  change Uint63Axioms.wB with 9223372036854775808.
  rewrite (Z.mod_small z) by lia.
  rewrite (Z.mod_small (z * 160934)) by lia.
  rewrite (Z.mod_small (z * 160934 + 50000)) by lia.
  rewrite Z.mod_small; [done|]. Z.div_mod_to_equations. lia.
Qed.

Lemma of_int_nonneg (z : Z) : 0 <= z -> of_int z = of_uint63 (Uint63.of_Z z).
Proof. intros Hz. unfold of_int. by destruct (Z.ltb_spec z 0); [lia|]. Qed.

(** On whole miles up to a million the floating-point conversion is the
    exact one: the displayed kilometres are the integer nearest to
    [m * 1.60934] in decimal arithmetic, a half rounding up (25,000 miles
    are 40,234 km). *)
Theorem convertDistance_exact (distanceUnit : string) (z : Z) :
  0 <= z <= 1000000 ->
  convertDistance distanceUnit (VNum (of_int z)) (Some "km")
  = Normal (VNum (of_int (km_exact z))).
Proof.
  intros Hz.
  assert (conversion_exact_ok z = true) as H
    by (apply (range_all_sound 1000001 conversion_exact_ok 0 conversion_exact_checked); lia).
  unfold conversion_exact_ok in H. rewrite convertDistance_explicit_unit.
  destruct (convertDistance "" (VNum (of_int z)) (Some "km")) as [[| |km]|]; try done.
  apply FloatAxioms.Leibniz.eqb_spec in H. rewrite H, km_exact63_spec by done.
  rewrite of_int_nonneg; [done|]. unfold km_exact. Z.div_mod_to_equations. lia.
Qed.

Lemma convertDistance_exact_witness :
  convertDistance "miles" (VNum (of_int 25000)) (Some "km")
  = Normal (VNum (of_int 40234)).
Proof. apply (convertDistance_exact "miles" 25000). lia. Defined.

Lemma km_exact_increasing (a b : Z) : a < b -> km_exact a < km_exact b.
Proof. unfold km_exact. intros H. Z.div_mod_to_equations. lia. Qed.

(** More miles show as more kilometres: on whole miles up to a million the
    displayed kilometres are whole numbers from 0 to 1,609,340 that grow
    strictly with the miles, so two different mileages never display
    alike. *)
Theorem convertDistance_increasing (distanceUnit : string) (a b : Z) :
  0 <= a -> a < b -> b <= 1000000 ->
  exists ka kb : Z,
    convertDistance distanceUnit (VNum (of_int a)) (Some "km") = Normal (VNum (of_int ka))
    /\ convertDistance distanceUnit (VNum (of_int b)) (Some "km") = Normal (VNum (of_int kb))
    /\ 0 <= ka /\ ka < kb /\ kb <= 1609340.
Proof.
  intros Ha Hab Hb. exists (km_exact a), (km_exact b).
  split; [apply convertDistance_exact; lia|].
  split; [apply convertDistance_exact; lia|].
  pose proof (km_exact_increasing a b Hab).
  unfold km_exact in *. repeat split; try done; Z.div_mod_to_equations; lia.
Qed.

Lemma convertDistance_increasing_witness :
  exists ka kb : Z,
    convertDistance "km" (VNum (of_int 54600)) (Some "km") = Normal (VNum (of_int ka))
    /\ convertDistance "km" (VNum (of_int 54601)) (Some "km") = Normal (VNum (of_int kb))
    /\ 0 <= ka /\ ka < kb /\ kb <= 1609340.
Proof. apply (convertDistance_increasing "km" 54600 54601); lia. Defined.

(** [formatDistance] never throws: whatever the value, the unit and the
    locale, [toLocaleString] is called on a number, and a string comes
    back. *)
Theorem formatDistance_never_throws
    (distanceUnit : string) (toLocaleString : float -> string)
    (v : Js.value) (showUnit : bool) :
  exists s, formatDistance distanceUnit toLocaleString v showUnit = Normal s.
Proof.
  unfold formatDistance.
  destruct (falsy v && strict_neq v 0); [by eexists|].
  destruct (convertDistance_number distanceUnit v None) as [x ->]. simpl.
  by eexists.
Qed.



(* ===================================================================== *)
(** ** More on the language context                                      *)
(* ===================================================================== *)

(** A label is never blank: for a key that is not the empty string, and a
    language code and key that do not name a member inherited from
    [Object.prototype], [t] returns a non-empty string, whatever the table
    holds (empty translations included). *)
Theorem t_never_blank
    (translations : gmap string (gmap string string))
    (builtin_get : string -> string -> completion any) (language key : string) :
  key <> "" ->
  Object_prototype !! language = None -> Object_prototype !! key = None ->
  exists s, t translations language builtin_get key = Normal (AString s) /\ s <> "".
Proof.
  intros Hkey Hl Hk. rewrite (t_own translations builtin_get language key Hl Hk).
  eexists. split; [reflexivity|].
  destruct (own_translation translations language key) as [[|c r]|];
    destruct (own_translation translations "en" key) as [[|c' r']|]; done.
Qed.

Lemma t_never_blank_witness :
  exists s,
    t sample_with_empty "fr" (fun _ _ => Normal AUndefined) "greeting"
    = Normal (AString s) /\ s <> "".
Proof. apply t_never_blank; [discriminate|reflexivity|reflexivity]. Defined.

Section Provider.
Implicit Types b : browser.


Lemma saved_or_Some (s fallback : string) : s <> "" -> saved_or (Some s) fallback = s.
Proof. by destruct s. Qed.

(** Reloading the page restores the selection: once the effects have run
    for a non-empty language and unit, a provider mounted on that browser
    starts with the same language and unit; the document's [lang] is the
    language, and no other key of the storage has changed. *)
Theorem provider_reload (language distanceUnit : string) b :
  language <> "" -> distanceUnit <> "" ->
  let b' := distanceUnit_effect distanceUnit (language_effect language b) in
  initial_language b' = language
  /\ initial_distanceUnit b' = distanceUnit
  /\ document_lang b' = language
  /\ (forall k, k <> "language" -> k <> "distanceUnit" ->
        localStorage b' !! k = localStorage b !! k).
Proof.
  intros Hl Hu b'. subst b'.
  unfold initial_language, initial_distanceUnit, distanceUnit_effect, language_effect.
  simpl. repeat split.
  - rewrite lookup_insert_ne by done. rewrite lookup_insert_eq. by apply saved_or_Some.
  - rewrite lookup_insert_eq. by apply saved_or_Some.
  - intros k H1 H2. by rewrite !lookup_insert_ne.
Qed.

End Provider.

Lemma provider_reload_witness :
  initial_language (distanceUnit_effect "km" (language_effect "ko" sample_browser)) = "ko"
  /\ initial_distanceUnit (distanceUnit_effect "km" (language_effect "ko" sample_browser))
     = "km".
Proof.
  destruct (provider_reload "ko" "km" sample_browser) as (H1 & H2 & _);
    [discriminate|discriminate|].
  split; [exact H1|exact H2].
Defined.

(* ===================================================================== *)
(** ** More on the car page                                              *)
(* ===================================================================== *)

Section TaskTypes.
Import CarDetail.

(** The table holds each type once, with positive defaults. *)
Lemma find_type_cases (v : string) :
  (find_type v = None /\ forall mt, mt ∈ maintenanceTypes -> value mt <> v)
  \/ (exists mt, find_type v = Some mt /\ mt ∈ maintenanceTypes /\ value mt = v
        /\ 0 < defaultMiles mt /\ 0 < defaultMonths mt
        /\ forall mt', mt' ∈ maintenanceTypes -> value mt' = v -> mt' = mt).
Proof.
  unfold find_type, maintenanceTypes. cbn [List.find value].
  repeat match goal with
  | |- context [String.eqb ?k v] =>
      destruct (String.eqb_spec k v) as [<-|?];
      [right; eexists; split; [reflexivity|]; split;
         [rewrite !elem_of_cons; tauto|];
       split; [done|]; split; [done|]; split; [done|];
       intros mt' Hin Hv;
       repeat (apply elem_of_cons in Hin as [->|Hin]; [done || discriminate|]);
       by apply elem_of_nil in Hin|]
  end.
  left. split; [done|]. intros mt Hin.
  repeat (apply elem_of_cons in Hin as [->|Hin]; [done|]).
  by apply elem_of_nil in Hin.
Qed.

(** Choosing a type in the add-task form always leaves positive
    intervals: the defaults of the type when the table knows it (each type
    is there once), 5000 miles and 6 months when it does not; the type is
    recorded and the rest of the draft is kept. *)
Theorem handleTaskTypeChange_intervals (v : string) (draft : newTask) :
  let draft' := handleTaskTypeChange v draft in
  0 < interval_miles draft' /\ 0 < interval_months draft'
  /\ task_type draft' = v
  /\ description draft' = description draft
  /\ last_performed_mileage draft' = last_performed_mileage draft
  /\ notes draft' = notes draft
  /\ (forall mt, mt ∈ maintenanceTypes -> value mt = v ->
        interval_miles draft' = defaultMiles mt
        /\ interval_months draft' = defaultMonths mt)
  /\ ((forall mt, mt ∈ maintenanceTypes -> value mt <> v) ->
        interval_miles draft' = 5000 /\ interval_months draft' = 6).
Proof.
  intros draft'. subst draft'. unfold handleTaskTypeChange. simpl.
  destruct (find_type_cases v) as [[-> Hnone]|(mt & -> & Hin & Hv & Hmi & Hmo & Huniq)];
    simpl.
  - split_and!; try done. intros mt Hin Hv. by destruct (Hnone mt Hin).
  - unfold number_or.
    destruct (Z.eqb_spec (defaultMiles mt) 0); [lia|].
    destruct (Z.eqb_spec (defaultMonths mt) 0); [lia|].
    split_and!; try done.
    + intros mt' Hin' Hv'. by rewrite (Huniq mt' Hin' Hv').
    + intros Hnone. by destruct (Hnone mt Hin).
Qed.

Lemma inherited_names (type : string) (member : Js.object) :
  Js.Object_prototype !! type = Some member ->
  type ∈ ["constructor"; "__proto__"; "hasOwnProperty"; "isPrototypeOf";
          "propertyIsEnumerable"; "toLocaleString"; "toString"; "valueOf";
          "__defineGetter__"; "__defineSetter__"; "__lookupGetter__";
          "__lookupSetter__"].
Proof.
  unfold Js.Object_prototype. intros H.
  repeat match goal with
  | H : <[?k := _]> _ !! type = Some _ |- _ =>
      destruct (decide (type = k)) as [->|?];
      [rewrite !elem_of_cons; tauto|rewrite lookup_insert_ne in H by done]
  end.
  destruct (decide (type = "__lookupSetter__")) as [->|?];
    [rewrite !elem_of_cons; tauto|by rewrite lookup_singleton_ne in H].
Qed.

(** The two pages draw the same icon for every task type that does not
    name a member inherited from [Object.prototype]: the icon of the
    dashboard entry (its own table, with a default) is then the icon of
    the task card (the maintenance types, with the wrench for the rest).
    For a type that does name one (['constructor'], say) the dashboard
    picks the inherited built-in object, no icon, where the card draws the
    wrench. *)
Theorem taskIcon_agree (type : string) :
  (Js.Object_prototype !! type = None ->
     Dashboard.taskIcon type = Some (inl (taskIcon type)))
  /\ (forall member, Js.Object_prototype !! type = Some member ->
        Dashboard.taskIcon type = Some (inr member) /\ taskIcon type = Wrench).
Proof.
  split.
  - intros Hnone.
    unfold taskIcon, find_type, maintenanceTypes. cbn [List.find value].
    repeat match goal with
    | |- context [String.eqb ?k type] =>
        destruct (String.eqb_spec k type) as [<-|?]; [reflexivity|]
    end.
    destruct (decide (type = "default")) as [->|?]; [reflexivity|].
    unfold Dashboard.taskIcon, Dashboard.icon_get at 1, Dashboard.maintenanceIcons.
    rewrite !lookup_insert_ne, lookup_singleton_ne by done.
    rewrite Hnone. reflexivity.
  - intros member Hm. pose proof (inherited_names type member Hm) as Hin.
    repeat (apply elem_of_cons in Hin as [->|Hin];
            [vm_compute in Hm; injection Hm as <-; split; reflexivity|]).
    by apply elem_of_nil in Hin.
Qed.

(** The title of a card has no underscore left: every underscore of the
    type, not only the first, has become a space, nothing else has
    changed (the length is the same, a type without underscore is its own
    title), and doing it again changes nothing. *)
Theorem task_title_underscores (type : string) :
  String.length (task_title type) = String.length type
  /\ (forall i, String.get i (task_title type) <> Some "_"%char)
  /\ (forall i c, String.get i type = Some c -> c <> "_"%char ->
        String.get i (task_title type) = Some c)
  /\ (forall i, String.get i type = Some "_"%char ->
        String.get i (task_title type) = Some " "%char)
  /\ task_title (task_title type) = task_title type.
Proof.
  induction type as [|c r (IH1 & IH2 & IH3 & IH4 & IH5)]; [by split_and!|].
  simpl. split_and!.
  - by rewrite IH1.
  - intros [|i]; simpl; [|apply IH2].
    destruct (Ascii.eqb_spec c "_"); congruence.
  - intros [|i] c'; simpl; [|apply IH3].
    intros [= ->] Hc. by destruct (Ascii.eqb_spec c' "_").
  - intros [|i]; simpl; [|apply IH4]. by intros [= ->].
  - rewrite IH5. destruct (Ascii.eqb_spec c "_") as [->|N]; [done|].
    by destruct (Ascii.eqb_spec c "_").
Qed.
End TaskTypes.

Section Health.
Import CarDetail.

(** The tally does not depend on the order of the tasks. *)
Theorem getStatusCounts_permutation (tasks tasks' : list task) :
  tasks ≡ₚ tasks' -> getStatusCounts tasks = getStatusCounts tasks'.
Proof.
  intros Hp. unfold getStatusCounts, zero_counts.
  change ({[ "good" := 0; "due_soon" := 0; "overdue" := 0;
             "replacement_requested" := 0 ]} : gmap string Z)
    with (counts_of 0 0 0 0).
  rewrite !foldl_count_task. unfold without_label, with_status. by rewrite Hp.
Qed.

Lemma getStatusCounts_permutation_witness :
  getStatusCounts [sample_task_view "overdue" false; sample_task_view "good" true]
  = getStatusCounts [sample_task_view "good" true; sample_task_view "overdue" false].
Proof. apply getStatusCounts_permutation. apply Permutation_swap. Defined.

Lemma replacement_badges_split (tasks : list task) :
  replacement_badges tasks
  = with_status "replacement_requested" tasks + flagged_under_other_status tasks.
Proof.
  unfold replacement_badges, with_status, flagged_under_other_status.
  induction tasks as [|t tasks IH]; [done|].
  rewrite !filter_cons. unfold isReplacementRequested in *.
  destruct (String.eqb_spec (status t) "replacement_requested") as [E|N];
    destruct (replacement_requested t); simpl;
    repeat case_decide; simpl length; try lia;
    exfalso; intuition congruence.
Qed.

(** The 'Needs Replacement' row of the health card counts the tasks whose
    status is ['replacement_requested'] and shows when there is one; the
    cards badged 'Needs Replacement' are those and, besides, the tasks
    flagged for replacement under another status, which the row leaves
    out. *)
Theorem replacement_row_and_badges (tasks : list task) :
  getStatusCounts tasks !! "replacement_requested"
  = Some (with_status "replacement_requested" tasks)
  /\ (0 < with_status "replacement_requested" tasks
      <-> exists t, t ∈ tasks /\ status t = "replacement_requested")
  /\ replacement_badges tasks
     = with_status "replacement_requested" tasks + flagged_under_other_status tasks
  /\ with_status "replacement_requested" tasks <= replacement_badges tasks.
Proof.
  split; [|split; [|split]].
  - unfold getStatusCounts, zero_counts.
    change ({[ "good" := 0; "due_soon" := 0; "overdue" := 0;
               "replacement_requested" := 0 ]} : gmap string Z)
      with (counts_of 0 0 0 0).
    rewrite foldl_count_task. unfold counts_of.
    rewrite !lookup_insert_ne by done. by rewrite lookup_singleton_eq.
  - unfold with_status. split.
    + intros Hpos.
      destruct (filter (fun t => status t = "replacement_requested") tasks)
        as [|t l] eqn:E; [simpl in Hpos; lia|].
      assert (t ∈ filter (fun t => status t = "replacement_requested") tasks) as Hin
        by (rewrite E; apply list_elem_of_here).
      apply list_elem_of_filter in Hin as [Hs Hin]. by exists t.
    + intros (t & Hin & Hs).
      assert (t ∈ filter (fun t => status t = "replacement_requested") tasks) as Hf
        by by apply list_elem_of_filter.
      destruct (filter _ tasks); [by apply elem_of_nil in Hf|simpl; lia].
  - apply replacement_badges_split.
  - rewrite replacement_badges_split. unfold flagged_under_other_status. lia.
Qed.
End Health.

(* ===================================================================== *)
(** ** More on the dashboard                                             *)
(* ===================================================================== *)

Section UpcomingList.
Variable sort : (task -> task -> Z) -> list task -> list task.
Hypothesis sort_permutes : forall cmp l, sort cmp l ≡ₚ l.

Lemma upcomingTasks_unfold (tasks : list task) :
  Dashboard.upcomingTasks sort tasks
  = take 5 (sort Dashboard.upcoming_order (due_or_overdue tasks)).
Proof. reflexivity. Qed.

Lemma upcomingTasks_elem (tasks : list task) (t : task) :
  t ∈ Dashboard.upcomingTasks sort tasks ->
  t ∈ tasks /\ (status t = "due_soon" \/ status t = "overdue").
Proof.
  rewrite upcomingTasks_unfold. intros Ht%subseteq_take.
  rewrite sort_permutes in Ht. unfold due_or_overdue in Ht.
  by apply list_elem_of_filter in Ht as [? ?].
Qed.
End UpcomingList.

(** The upcoming list shows as many tasks as are due soon or overdue, up
    to five: all of them (in some order) when they are at most five, and
    none, the page then saying that all maintenance is up to date, exactly
    when no task is due soon or overdue. *)
Theorem upcomingTasks_complete
    (sort : (task -> task -> Z) -> list task -> list task) (tasks : list task) :
  (forall cmp l, sort cmp l ≡ₚ l) ->
  length (Dashboard.upcomingTasks sort tasks)
  = Nat.min 5 (length (due_or_overdue tasks))
  /\ ((length (due_or_overdue tasks) <= 5)%nat ->
        Dashboard.upcomingTasks sort tasks ≡ₚ due_or_overdue tasks)
  /\ (Dashboard.upcomingTasks sort tasks = []
      <-> forall t, t ∈ tasks -> status t <> "due_soon" /\ status t <> "overdue").
Proof.
  intros Hsort. rewrite upcomingTasks_unfold.
  assert (length (sort Dashboard.upcoming_order (due_or_overdue tasks))
          = length (due_or_overdue tasks)) as Hlen by by rewrite Hsort.
  split; [by rewrite length_take, Hlen|]. split.
  - intros Hle. rewrite take_ge by lia. apply Hsort.
  - split.
    + intros Hnil t Ht.
      assert (length (take 5 (sort Dashboard.upcoming_order (due_or_overdue tasks))) = 0%nat)
        as H0 by by rewrite Hnil.
      rewrite length_take, Hlen in H0.
      assert (due_or_overdue tasks = []) as Hd
        by (destruct (due_or_overdue tasks); [done|simpl in H0; lia]).
      assert (~ (status t = "due_soon" \/ status t = "overdue")) as Hn.
      { intros Hs. assert (t ∈ due_or_overdue tasks) as Hin
          by by apply list_elem_of_filter.
        rewrite Hd in Hin. by apply elem_of_nil in Hin. }
      tauto.
    + intros Hnone.
      assert (due_or_overdue tasks = []) as Hd.
      { destruct (due_or_overdue tasks) as [|t l] eqn:E; [done|].
        assert (t ∈ due_or_overdue tasks) as Hin by (rewrite E; apply list_elem_of_here).
        apply list_elem_of_filter in Hin as [Hs Hin].
        destruct (Hnone t Hin). tauto. }
      rewrite Hd.
      assert (length (sort Dashboard.upcoming_order []) = 0%nat) as H0
        by by rewrite Hsort.
      destruct (sort Dashboard.upcoming_order []); [done|simpl in H0; lia].
Qed.

Lemma upcomingTasks_complete_witness :
  length (Dashboard.upcomingTasks sort_insertion
            [sample_task_view "good" false; sample_task_view "overdue" false;
             sample_task_view "due_soon" true])
  = Nat.min 5 (length (due_or_overdue
            [sample_task_view "good" false; sample_task_view "overdue" false;
             sample_task_view "due_soon" true])).
Proof.
  apply (upcomingTasks_complete sort_insertion).
  intros cmp l. apply sort_insertion_perm.
Defined.

(** The badge of an upcoming entry has only two texts, and the selection
    makes them right: every entry shown is overdue and badged 'Overdue',
    or due soon and badged 'Due Soon'.  Unless the task is flagged for
    replacement, that is also the badge of its card on the car page. *)
Theorem upcomingBadge_matches
    (sort : (task -> task -> Z) -> list task -> list task)
    (tasks : list task) (t : task) :
  (forall cmp l, sort cmp l ≡ₚ l) ->
  t ∈ Dashboard.upcomingTasks sort tasks ->
  ((status t = "overdue" /\ Dashboard.upcomingBadge t = "Overdue")
   \/ (status t = "due_soon" /\ Dashboard.upcomingBadge t = "Due Soon"))
  /\ (replacement_requested t = false ->
        Dashboard.upcomingBadge t = CarDetail.badgeLabel t).
Proof.
  intros Hsort Ht. apply (upcomingTasks_elem sort Hsort) in Ht as [_ Hs].
  unfold Dashboard.upcomingBadge, CarDetail.badgeLabel, CarDetail.isReplacementRequested.
  destruct Hs as [-> | ->]; (split; [tauto|by intros ->]).
Qed.

Lemma upcomingBadge_matches_witness :
  Dashboard.upcomingBadge (sample_task_view "due_soon" false)
  = CarDetail.badgeLabel (sample_task_view "due_soon" false).
Proof.
  assert (sample_task_view "due_soon" false
          ∈ Dashboard.upcomingTasks sort_insertion
              [sample_task_view "good" false; sample_task_view "due_soon" false]) as Hin
    by (vm_compute; apply list_elem_of_here).
  destruct (upcomingBadge_matches sort_insertion _ _
              (fun cmp l => sort_insertion_perm cmp l) Hin) as [_ H].
  apply H. reflexivity.
Defined.

Lemma count_spaces_app (a b : string) :
  count_spaces (a +:+ b) = (count_spaces a + count_spaces b)%nat.
Proof. induction a as [|c a IH]; simpl; [done|]. rewrite IH. lia. Qed.

Lemma find_first (cars before after : list Dashboard.car) (first : Dashboard.car)
    (carId : string) :
  cars = (before ++ first :: after)%list ->
  (forall c, c ∈ before -> Dashboard.id c <> carId) ->
  Dashboard.id first = carId ->
  List.find (fun c => String.eqb (Dashboard.id c) carId) cars = Some first.
Proof.
  intros -> Hbefore Hfirst. induction before as [|c before IH]; simpl.
  - by rewrite (proj2 (String.eqb_eq _ _) Hfirst).
  - rewrite (proj2 (String.eqb_neq _ _) (Hbefore c (list_elem_of_here _ _))).
    apply IH. intros c' Hc'. apply Hbefore. by apply list_elem_of_further.
Qed.

(** The name of a vehicle is 'Unknown Car' exactly when no vehicle of the
    list has the id asked for (a real name, with its two separating
    spaces, is never that text); otherwise it is year, make and model of
    the first vehicle with that id: the one that no vehicle with the id
    precedes in the list. *)
Theorem getCarName_unknown (cars : list Dashboard.car) (carId : string) :
  (Dashboard.getCarName cars carId = "Unknown Car"
   <-> forall c, c ∈ cars -> Dashboard.id c <> carId)
  /\ (forall before first after,
        cars = (before ++ first :: after)%list ->
        (forall c, c ∈ before -> Dashboard.id c <> carId) ->
        Dashboard.id first = carId ->
        Dashboard.getCarName cars carId
        = pretty (Dashboard.year first) +:+ " " +:+ Dashboard.make first
          +:+ " " +:+ Dashboard.model first).
Proof.
  split.
  - unfold Dashboard.getCarName.
    destruct (List.find (fun c => String.eqb (Dashboard.id c) carId) cars)
      as [car|] eqn:E.
    + apply find_some in E as [Hin Hid]. apply list_elem_of_In in Hin.
      apply String.eqb_eq in Hid. split.
      * intros Hname. apply (f_equal count_spaces) in Hname.
        rewrite !count_spaces_app in Hname. simpl in Hname. lia.
      * intros Hnone. by destruct (Hnone car Hin).
    + split; [|done]. intros _ c Hin Hid.
      apply list_elem_of_In in Hin.
      pose proof (find_none _ _ E c Hin) as Hf. simpl in Hf.
      by apply String.eqb_neq in Hf.
  - intros before first after Hcars Hbefore Hfirst. unfold Dashboard.getCarName.
    by rewrite (find_first cars before after first carId Hcars Hbefore Hfirst).
Qed.

(** Of two vehicles with the id ["c2"], the earlier one gives the name. *)
Lemma getCarName_unknown_witness :
  Dashboard.getCarName sample_cars_twice "c2" = "1999 Honda Civic".
Proof.
  destruct (getCarName_unknown sample_cars_twice "c2") as [_ H].
  apply (H [Dashboard.mkCar "c1" 2020 "Toyota" "Camry" None]
           (Dashboard.mkCar "c2" 1999 "Honda" "Civic" None)
           [Dashboard.mkCar "c2" 2001 "Honda" "Accord" None]).
  - reflexivity.
  - intros c Hc. apply list_elem_of_singleton in Hc as ->. discriminate.
  - reflexivity.
Defined.

(** Every vehicle of the list gets a picture: the image source is defined
    for every position, and it is the vehicle's own non-empty URL or one
    of the two placeholders, taken in turn. *)
Theorem imageSource_defined (c : Dashboard.car) (index : nat) :
  exists url,
    Dashboard.imageSource c index = Some url /\ url <> ""
    /\ (Dashboard.image_url c = Some url
        \/ (Dashboard.carPlaceholders !! (index mod 2)%nat = Some url
            /\ (Dashboard.image_url c = None \/ Dashboard.image_url c = Some ""))).
Proof.
  unfold Dashboard.imageSource.
  change (length Dashboard.carPlaceholders) with 2%nat.
  assert (exists p, Dashboard.carPlaceholders !! (index mod 2)%nat = Some p /\ p <> "")
    as (p & Hp & Hne).
  { pose proof (Nat.mod_upper_bound index 2).
    destruct (index mod 2)%nat as [|[|n]]; [by eexists|by eexists|lia]. }
  rewrite Hp.
  destruct (Dashboard.image_url c) as [[|ch r]|]; simpl.
  - exists p. split; [done|]. split; [done|]. right. split; [done|]. by right.
  - eexists. split; [done|]. split; [done|]. by left.
  - exists p. split; [done|]. split; [done|]. right. split; [done|]. by left.
Qed.
